(** * Zero-trust FastAPI demo: token issuer and policy enforcement point

    A shallow embedding of [services/auth_service/main.py] (the token
    issuer) and [services/orders_api/main.py] (the policy enforcement point
    in front of the orders resource), with the properties of the
    authorization decision pipeline proved over it.

    Python dictionaries are finite maps from strings to JSON values, the
    wall clock is an explicit integer argument, [raise HTTPException] is a
    constructor of the result type, and the module-level list [ORDERS] is
    threaded through the handlers as explicit state. *)

From Stdlib Require Import Ascii.
From stdpp Require Import base option list gmap strings pretty.

Local Open Scope Z_scope.
Local Open Scope string_scope.

(** ** JSON values and the Python operations the services apply to them *)

(** The values a decoded claim can hold.  Numbers are integers here: the
    services only ever produce and compare integral time stamps. *)
Local Unset Elimination Schemes.
Inductive jvalue : Type :=
| JNull
| JBool (b : bool)
| JNum (n : Z)
| JStr (s : string)
| JArr (l : list jvalue)
| JObj (kvs : list (string * jvalue)).
Local Set Elimination Schemes.

(** [v == s] for a Python string [s]: only a string equals a string. *)
Definition py_eq_str (v : jvalue) (s : string) : bool :=
  match v with
  | JStr t => bool_decide (t = s)
  | _ => false
  end.

(** [dict.get(key)] compared with a string: a missing key yields [None],
    which differs from every string. *)
Definition get_eq_str (d : gmap string jvalue) (key s : string) : bool :=
  match d !! key with
  | Some v => py_eq_str v s
  | None => false
  end.

(** [s in t] on two strings is the substring test. *)
Definition substringb (s t : string) : bool :=
  match String.index 0 s t with
  | Some _ => true
  | None => false
  end.

(** [s in v] for a Python string [s].  Lists test element equality, strings
    test for a substring, dictionaries test their keys; the remaining JSON
    values are not iterable and the operator raises [TypeError], rendered
    as [None]. *)
Definition py_in (s : string) (v : jvalue) : option bool :=
  match v with
  | JArr l => Some (existsb (fun x => py_eq_str x s) l)
  | JStr t => Some (substringb s t)
  | JObj kvs => Some (existsb (fun kv => bool_decide (kv.1 = s)) kvs)
  | JNull | JBool _ | JNum _ => None
  end.

(** ** Exceptions and results *)

Record HTTPException : Type := mkHTTPException {
  status_code : Z;
  detail : string
}.

(** What a Python function of the services can do: return, raise an
    [HTTPException], or let another exception escape. *)
Inductive outcome (A : Type) : Type :=
| Return (a : A)
| Raise (e : HTTPException)
| Unhandled.
Arguments Return {A} a.
Arguments Raise {A} e.
Arguments Unhandled {A}.

(** ** Shared configuration (identical in both services) *)

Definition JWT_ISSUER : string := "demo-auth".
Definition JWT_AUDIENCE : string := "orders-api".
Definition JWT_SECRET : string := "dev-secret-change-me".
Definition JWT_ALG : string := "HS256".
Definition JWT_TTL_SECONDS : Z := 10 * 60.

(** ** Token codec *)

(** A token string is either text that does not split into a header, a
    payload and a signature, or such a compact triple. *)
Inductive token_str : Type :=
| Garbled (text : string)
| Compact (alg : string) (payload : gmap string jvalue) (signature : string).

(** The three ways verification fails; all of them are [JWTError]s. *)
Inductive JWTError : Type :=
| Malformed
| BadSignature
| InvalidClaims.

Section Codec.

(** The keyed signature function: key, algorithm identifier and signed
    payload to signature text. *)
Variable hmac : string -> string -> gmap string jvalue -> string.

(** Modelled from the spec: [jose.jwt.encode] is a third-party function
    that is not under src/.  It serializes the claims and appends a
    signature over the serialized payload computed with the secret and
    the algorithm. *)
Definition jwt_encode (payload : gmap string jvalue) (key alg : string)
  : token_str :=
  Compact alg payload (hmac key alg payload).

(** The expiry check of the codec: verification fails once [now] is past
    the expires-at claim.  A claim set always carries an integral
    expires-at, so one without it does not pass. *)
Definition exp_ok (payload : gmap string jvalue) (now : Z) : bool :=
  match payload !! "exp" with
  | Some (JNum e) => bool_decide (now <= e)
  | _ => false
  end.

(** Modelled from the spec: [jose.jwt.decode] is a third-party function
    that is not under src/.  It rejects a malformed token, recomputes and
    validates the signature, and on success validates issuer, audience
    and expiry; issuer and audience are string claims that have to equal
    the expected ones. *)
Definition jwt_decode (token : token_str) (key : string)
    (algorithms : list string) (audience issuer : string) (now : Z)
  : JWTError + gmap string jvalue :=
  match token with
  | Garbled _ => inl Malformed
  | Compact alg payload signature =>
      if negb (bool_decide (alg ∈ algorithms)) then inl BadSignature
      else if negb (bool_decide (signature = hmac key alg payload))
      then inl BadSignature
      else if negb (get_eq_str payload "iss" issuer) then inl InvalidClaims
      else if negb (get_eq_str payload "aud" audience) then inl InvalidClaims
      else if negb (exp_ok payload now) then inl InvalidClaims
      else inr payload
  end.

End Codec.

(** ** Token issuer ([services/auth_service/main.py]) *)

(** [Literal["reader", "admin"]] *)
Inductive Role : Type := reader | admin.

Definition role_str (r : Role) : string :=
  match r with
  | reader => "reader"
  | admin => "admin"
  end.

Record LoginRequest : Type := mkLoginRequest {
  username : string;
  password : string;
  role : Role
}.

Record TokenResponse : Type := mkTokenResponse {
  access_token : token_str;
  token_type : string;
  expires_in : Z
}.

(** The conditional expression that computes [scopes]. *)
Definition scopes_of (r : Role) : list string :=
  if bool_decide (role_str r = "reader")
  then ["orders:read"]
  else ["orders:read"; "orders:write"].

(** The dictionary literal [payload]. *)
Definition mint (req : LoginRequest) (now : Z) : gmap string jvalue :=
  <["iss" := JStr JWT_ISSUER]>
  (<["aud" := JStr JWT_AUDIENCE]>
  (<["iat" := JNum now]>
  (<["exp" := JNum (now + JWT_TTL_SECONDS)]>
  (<["sub" := JStr (username req)]>
  (<["role" := JStr (role_str (role req))]>
  (<["scp" := JArr (JStr <$> scopes_of (role req))]>
  (<["tenant" := JStr "demo-tenant"]> ∅))))))).

(** [POST /token]: any username is accepted with the password "pass";
    [now] is [int(time.time())]. *)
Definition token (hmac : string -> string -> gmap string jvalue -> string)
    (req : LoginRequest) (now : Z) : outcome TokenResponse :=
  if negb (bool_decide (password req = "pass"))
  then Raise (mkHTTPException 401 "invalid credentials")
  else
    let payload := mint req now in
    let token_str := jwt_encode hmac payload JWT_SECRET JWT_ALG in
    Return (mkTokenResponse token_str "bearer" JWT_TTL_SECONDS).

(** ** Request validation at the issuance boundary *)

(** The JSON body of [POST /token] before validation: each field may be
    absent, and [role] may hold any JSON value. *)
Record LoginBody : Type := mkLoginBody {
  body_username : option string;
  body_password : option string;
  body_role : option jvalue
}.

(** The field declaration [role: Literal["reader", "admin"] = "reader"]. *)
Definition validate_role (v : option jvalue) : option Role :=
  match v with
  | None => Some reader
  | Some (JStr s) =>
      if bool_decide (s = "reader") then Some reader
      else if bool_decide (s = "admin") then Some admin
      else None
  | Some _ => None
  end.

(** Validation of the body against the model [LoginRequest]. *)
Definition validate_LoginRequest (b : LoginBody) : option LoginRequest :=
  match body_username b, body_password b, validate_role (body_role b) with
  | Some u, Some p, Some r => Some (mkLoginRequest u p r)
  | _, _, _ => None
  end.

(** What the issuance boundary answers. *)
Inductive issuance : Type :=
| Issued (resp : TokenResponse)
| Unprocessable
| Refused (e : HTTPException)
| Failed.

(** The route [POST /token]: the framework validates the body into a
    [LoginRequest] and only then calls [token]. *)
Definition post_token (hmac : string -> string -> gmap string jvalue -> string)
    (b : LoginBody) (now : Z) : issuance :=
  match validate_LoginRequest b with
  | None => Unprocessable
  | Some req =>
      match token hmac req now with
      | Return resp => Issued resp
      | Raise e => Refused e
      | Unhandled => Failed
      end
  end.

(** ** Policy enforcement point ([services/orders_api/main.py]) *)

(** The parts of an inbound request the dependencies read: the credentials
    of the bearer scheme ([None] when there are none) and the two context
    headers. *)
Record Request : Type := mkRequest {
  creds : option token_str;
  x_device_trust : option string;
  x_risk : option string
}.

Definition require_jwt (hmac : string -> string -> gmap string jvalue -> string)
    (creds : option token_str) (now : Z) : outcome (gmap string jvalue) :=
  match creds with
  | None => Raise (mkHTTPException 401 "missing bearer token")
  | Some token_str =>
      match jwt_decode hmac token_str JWT_SECRET [JWT_ALG]
              JWT_AUDIENCE JWT_ISSUER now with
      | inr payload => Return payload
      | inl _ => Raise (mkHTTPException 401 "invalid token")
      end
  end.

(** The inner [_check] of [require_scope(scope)]. *)
Definition require_scope (scope : string) (user : gmap string jvalue)
  : outcome (gmap string jvalue) :=
  let scopes := default (JArr []) (user !! "scp") in
  match py_in scope scopes with
  | None => Unhandled
  | Some false => Raise (mkHTTPException 403 ("missing scope: " +:+ scope))
  | Some true => Return user
  end.

(** The inner [_check] of [require_role(role)]. *)
Definition require_role (role : string) (user : gmap string jvalue)
  : outcome (gmap string jvalue) :=
  if negb (get_eq_str user "role" role)
  then Raise (mkHTTPException 403 ("requires role: " +:+ role))
  else Return user.

Definition require_context (x_device_trust x_risk : option string)
  : outcome bool :=
  if negb (bool_decide (x_device_trust = Some "managed"))
  then Raise (mkHTTPException 403
         "device not compliant (expected X-Device-Trust: managed)")
  else if bool_decide (x_risk = Some "high")
  then Raise (mkHTTPException 403 "risk too high (expected X-Risk != high)")
  else Return true.

(** *** Dependency resolution *)

(** The dependency functions a route can declare. *)
Inductive dependency : Type :=
| dep_require_jwt
| dep_require_scope
| dep_require_role
| dep_require_context.

(** The denial codes of the policy predicates. *)
Inductive denial : Type :=
| Unauthenticated
| InsufficientScope
| InsufficientRole
| UntrustedContext.

(** The code a denial carries is that of the dependency that raised. *)
Definition denial_code (d : dependency) : denial :=
  match d with
  | dep_require_jwt => Unauthenticated
  | dep_require_scope => InsufficientScope
  | dep_require_role => InsufficientRole
  | dep_require_context => UntrustedContext
  end.

Inductive verdict (A : Type) : Type :=
| Allowed (a : A)
| Denied (code : denial) (e : HTTPException)
| ServerError.
Arguments Allowed {A} a.
Arguments Denied {A} code e.
Arguments ServerError {A}.

(** Resolving dependencies yields the list of dependency functions that
    were called, in call order, and a verdict. *)
Definition Dep (A : Type) : Type := list dependency * verdict A.

Definition dep_ret {A : Type} (a : A) : Dep A := ([], Allowed a).

(** Sequencing stops at the first dependency that does not return. *)
Definition dep_bind {A B : Type} (m : Dep A) (f : A -> Dep B) : Dep B :=
  match m with
  | (called, Allowed a) =>
      let '(called', v) := f a in ((called ++ called')%list, v)
  | (called, Denied code e) => (called, Denied code e)
  | (called, ServerError) => (called, ServerError)
  end.

Notation "'let*' x ':=' m 'in' k" := (dep_bind m (fun x => k))
  (at level 10, x name, m at level 100, k at level 200).

(** [Depends(d)]: call the dependency function and record the call. *)
Definition Depends {A : Type} (d : dependency) (r : outcome A) : Dep A :=
  ([d],
   match r with
   | Return a => Allowed a
   | Raise e => Denied (denial_code d) e
   | Unhandled => ServerError
   end).

Section Enforcement.

Variable hmac : string -> string -> gmap string jvalue -> string.

Definition solve_require_jwt (req : Request) (now : Z)
  : Dep (gmap string jvalue) :=
  Depends dep_require_jwt (require_jwt hmac (creds req) now).

Definition solve_require_scope (scope : string) (req : Request) (now : Z)
  : Dep (gmap string jvalue) :=
  let* user := solve_require_jwt req now in
  Depends dep_require_scope (require_scope scope user).

Definition solve_require_role (role : string) (req : Request) (now : Z)
  : Dep (gmap string jvalue) :=
  let* user := solve_require_jwt req now in
  Depends dep_require_role (require_role role user).

Definition solve_require_context (req : Request) : Dep bool :=
  Depends dep_require_context
    (require_context (x_device_trust req) (x_risk req)).

End Enforcement.

(** *** The protected store and the path functions *)

(** An entry of [ORDERS]; the total is kept in hundredths. *)
Record order : Type := mkOrder {
  order_id : string;
  order_total : Z
}.

(** The initial value of the module-level list. *)
Definition ORDERS : list order :=
  [mkOrder "A100" 4250; mkOrder "B200" 1337].

(** [d.get(key)]: a missing key yields [None]. *)
Definition py_get (d : gmap string jvalue) (key : string) : jvalue :=
  default JNull (d !! key).

(** The format specification [03d] on a natural number. *)
Definition format_03d (n : nat) : string :=
  let digits := pretty n in
  String.concat "" (replicate (3 - String.length digits)%nat "0") +:+ digits.

(** The JSON bodies the three routes answer with. *)
Inductive body : Type :=
| ListOrdersBody (caller : gmap string jvalue) (orders : list order)
| CreateOrderBody (ok : bool) (created : string) (created_by : jvalue)
| AdminAuditBody (ok : bool) (message : string)
    (caller : gmap string jvalue) (events : list (string * Z)).

(** A path function receives its resolved dependencies and the store, and
    returns its body and the store it leaves behind. *)
Definition list_orders (user : gmap string jvalue) (_ctx : bool)
    (orders : list order) : body * list order :=
  (ListOrdersBody
     (<["sub" := py_get user "sub"]>
      (<["role" := py_get user "role"]>
      (<["scp" := py_get user "scp"]>
      (<["tenant" := py_get user "tenant"]> ∅))))
     orders,
   orders).

Definition create_order (user : gmap string jvalue) (_ctx : bool)
    (orders : list order) : body * list order :=
  let new_id := "X" +:+ format_03d (length orders + 1)%nat in
  (CreateOrderBody true new_id (py_get user "sub"),
   (orders ++ [mkOrder new_id 999])%list).

Definition admin_audit (user : gmap string jvalue) (_ctx : bool)
    (orders : list order) : body * list order :=
  (AdminAuditBody true "audit log access granted"
     (<["sub" := py_get user "sub"]>
      (<["role" := py_get user "role"]> ∅))
     [("orders_read", 123); ("orders_write", 7)],
   orders).

(** The three protected routes. *)
Inductive endpoint : Type :=
| GET_orders
| POST_orders
| GET_admin_audit.

Definition path_function (ep : endpoint)
  : gmap string jvalue -> bool -> list order -> body * list order :=
  match ep with
  | GET_orders => list_orders
  | POST_orders => create_order
  | GET_admin_audit => admin_audit
  end.

(** What serving one request yields: the dependency functions called, the
    verdict, and the store afterwards. *)
Record served : Type := mkServed {
  called : list dependency;
  result : verdict body;
  store : list order
}.

Section Routes.

Variable hmac : string -> string -> gmap string jvalue -> string.

(** The parameters of each path function, resolved left to right. *)
Definition dependencies (ep : endpoint) (req : Request) (now : Z)
  : Dep (gmap string jvalue * bool) :=
  match ep with
  | GET_orders =>
      let* user := solve_require_scope hmac "orders:read" req now in
      let* _ctx := solve_require_context req in
      dep_ret (user, _ctx)
  | POST_orders =>
      let* user := solve_require_scope hmac "orders:write" req now in
      let* _ctx := solve_require_context req in
      dep_ret (user, _ctx)
  | GET_admin_audit =>
      let* user := solve_require_role hmac "admin" req now in
      let* _ctx := solve_require_context req in
      dep_ret (user, _ctx)
  end.

(** Serving a request: the path function runs only when every
    dependency returned. *)
Definition serve (ep : endpoint) (req : Request) (now : Z)
    (orders : list order) : served :=
  match dependencies ep req now with
  | (called, Allowed (user, _ctx)) =>
      let '(b, orders') := path_function ep user _ctx orders in
      mkServed called (Allowed b) orders'
  | (called, Denied code e) => mkServed called (Denied code e) orders
  | (called, ServerError) => mkServed called ServerError orders
  end.

End Routes.

(** ** A concrete signature function to evaluate the services on *)

(** Renders a JSON value as text. *)
Fixpoint render (v : jvalue) : string :=
  match v with
  | JNull => "null"
  | JBool true => "true"
  | JBool false => "false"
  | JNum n => pretty n
  | JStr s => s
  | JArr l =>
      "[" +:+
      (fix items (l : list jvalue) : string :=
         match l with
         | [] => ""
         | x :: r => render x +:+ "," +:+ items r
         end) l +:+ "]"
  | JObj kvs =>
      "{" +:+
      (fix fields (l : list (string * jvalue)) : string :=
         match l with
         | [] => ""
         | (k, x) :: r => k +:+ ":" +:+ render x +:+ "," +:+ fields r
         end) kvs +:+ "}"
  end.

(** A transparent stand-in for HMAC: the tag spells out the key, the
    algorithm and the payload. *)
Definition tag_hmac (key alg : string) (payload : gmap string jvalue)
  : string :=
  key +:+ "/" +:+ alg +:+ "/" +:+ render (JObj (map_to_list payload)).

(** ** Vocabulary of the properties *)

(** The predicate that guards each route between authentication and the
    context check, and the dependency function that implements it. *)
Definition guard (ep : endpoint) : dependency :=
  match ep with
  | GET_orders | POST_orders => dep_require_scope
  | GET_admin_audit => dep_require_role
  end.

Definition guard_check (ep : endpoint) (user : gmap string jvalue)
  : outcome (gmap string jvalue) :=
  match ep with
  | GET_orders => require_scope "orders:read" user
  | POST_orders => require_scope "orders:write" user
  | GET_admin_audit => require_role "admin" user
  end.

(** The scope a route requires, when its guard is a scope check. *)
Definition required_scope (ep : endpoint) : option string :=
  match ep with
  | GET_orders => Some "orders:read"
  | POST_orders => Some "orders:write"
  | GET_admin_audit => None
  end.

(** The external status each denial code is mapped to. *)
Definition external_status (code : denial) : Z :=
  match code with
  | Unauthenticated => 401
  | InsufficientScope | InsufficientRole | UntrustedContext => 403
  end.

(** The scope set each role is entitled to. *)
Definition role_scopes (r : Role) : list string :=
  match r with
  | reader => ["orders:read"]
  | admin => ["orders:read"; "orders:write"]
  end.

(** Sample inputs. *)
Definition ola_reader : LoginRequest := mkLoginRequest "ola" "pass" reader.
Definition ola_admin : LoginRequest := mkLoginRequest "ola" "pass" admin.
Definition ola_wrong : LoginRequest := mkLoginRequest "ola" "wrong" reader.

(** The encoded claim set of a request: the [access_token] that [token]
    returns when it accepts the password. *)
Definition minted_token
    (hmac : string -> string -> gmap string jvalue -> string)
    (req : LoginRequest) (now : Z) : token_str :=
  jwt_encode hmac (mint req now) JWT_SECRET JWT_ALG.

(** The reasons for which a token fails verification at time [now]. *)
Inductive unverifiable
    (hmac : string -> string -> gmap string jvalue -> string) (now : Z)
  : token_str -> Prop :=
| malformed_structure text :
    unverifiable hmac now (Garbled text)
| wrong_signing_secret alg payload signature :
    signature <> hmac JWT_SECRET alg payload ->
    unverifiable hmac now (Compact alg payload signature)
| expired alg payload signature exp :
    payload !! "exp" = Some (JNum exp) ->
    exp < now ->
    unverifiable hmac now (Compact alg payload signature)
| mismatched_issuer alg payload signature :
    payload !! "iss" <> Some (JStr JWT_ISSUER) ->
    unverifiable hmac now (Compact alg payload signature)
| mismatched_audience alg payload signature :
    payload !! "aud" <> Some (JStr JWT_AUDIENCE) ->
    unverifiable hmac now (Compact alg payload signature).

(** Sample tokens, requests and bodies: a token signed with another
    secret, an admin token and a reader token minted at 1000 (they expire
    at 1600), a correctly signed token whose scopes claim is a number,
    a request that presents a token from a managed device and
    one that presents it without context headers, the response to the
    admin issuance, a body with an unknown role and a body of an admin. *)
Definition forged_token : token_str :=
  jwt_encode tag_hmac (mint ola_admin 1000) "another-secret" JWT_ALG.
Definition admin_token : token_str := minted_token tag_hmac ola_admin 1000.
Definition reader_token : token_str := minted_token tag_hmac ola_reader 1000.
Definition numeric_scp_token : token_str :=
  jwt_encode tag_hmac (<["scp" := JNum 5]> (mint ola_reader 1000))
    JWT_SECRET JWT_ALG.
Definition managed_request (tok : token_str) : Request :=
  mkRequest (Some tok) (Some "managed") None.
Definition unmanaged_request (tok : token_str) : Request :=
  mkRequest (Some tok) None None.
Definition admin_response : TokenResponse :=
  mkTokenResponse admin_token "bearer" JWT_TTL_SECONDS.
Definition root_body : LoginBody :=
  mkLoginBody (Some "ola") (Some "wrong") (Some (JStr "root")).
Definition admin_body : LoginBody :=
  mkLoginBody (Some "ola") (Some "pass") (Some (JStr "admin")).

(** ** Demo clients ([client/_call.py], [client/get_token.py]) *)

(** The truth value of a Python string: every string but the empty one. *)
Definition truthy (s : string) : bool := negb (bool_decide (s = "")).

(** [os.environ.get(key, "")]. *)
Definition environ_get (environ : gmap string string) (key : string)
  : string :=
  default "" (environ !! key).

(** [build_headers(token)] of [_call.py], with the process environment as
    an argument. *)
Definition build_headers (environ : gmap string string) (token : string)
  : gmap string string :=
  let headers : gmap string string := ∅ in
  let headers :=
    if truthy token
    then <["Authorization" := "Bearer " +:+ token]> headers
    else headers in
  let device := environ_get environ "DEVICE_TRUST" in
  let risk := environ_get environ "RISK" in
  let headers :=
    if truthy device then <["X-Device-Trust" := device]> headers
    else headers in
  let headers :=
    if truthy risk then <["X-Risk" := risk]> headers else headers in
  headers.

(** The arguments of [get_token.py]: [--user] defaults to "ola", [--role]
    defaults to "reader" and has to be one of the two choices; the parser
    exits on another value ([None]). *)
Definition get_token_args (user role : option string)
  : option (string * string) :=
  match role with
  | None => Some (default "ola" user, "reader")
  | Some r =>
      if bool_decide (r ∈ ["reader"; "admin"])
      then Some (default "ola" user, r)
      else None
  end.

(** The JSON [payload] that [get_token.py] posts to the issuer. *)
Definition get_token_payload (args : string * string) : LoginBody :=
  mkLoginBody (Some args.1) (Some "pass") (Some (JStr args.2)).

(** ** Requests served one after another *)

Record call : Type := mkCall {
  call_endpoint : endpoint;
  call_request : Request;
  call_time : Z
}.

(** The store after a sequence of calls, each served on the store the
    previous one left. *)
Fixpoint serve_all (hmac : string -> string -> gmap string jvalue -> string)
    (calls : list call) (orders : list order) : list order :=
  match calls with
  | [] => orders
  | c :: rest =>
      serve_all hmac rest
        (store (serve hmac (call_endpoint c) (call_request c) (call_time c)
                  orders))
  end.

(** The orders that [k] runs of [create_order] append to a store that
    holds [n] orders. *)
Definition created_orders (n k : nat) : list order :=
  (fun i => mkOrder ("X" +:+ format_03d (n + i + 1)%nat) 999) <$> seq 0 k.

(** Reading a decimal numeral back: the value of a digit, of a run of
    digits after the value [acc] read so far, and of a whole numeral;
    text with any other character has no value. *)
Definition digit_value (c : ascii) : option N :=
  let code := N_of_ascii c in
  if ((48 <=? code) && (code <=? 57))%N then Some (code - 48)%N else None.

Fixpoint read_digits (acc : N) (s : string) : option N :=
  match s with
  | EmptyString => Some acc
  | String c rest =>
      match digit_value c with
      | Some d => read_digits (10 * acc + d)%N rest
      | None => None
      end
  end.

Definition decimal_value (s : string) : option N :=
  match s with
  | EmptyString => None
  | _ => read_digits 0 s
  end.

(** Every [HTTPException] that the dependency functions of the three
    routes construct. *)
Definition denial_exceptions : list HTTPException :=
  [mkHTTPException 401 "missing bearer token";
   mkHTTPException 401 "invalid token";
   mkHTTPException 403 "missing scope: orders:read";
   mkHTTPException 403 "missing scope: orders:write";
   mkHTTPException 403 "requires role: admin";
   mkHTTPException 403
     "device not compliant (expected X-Device-Trust: managed)";
   mkHTTPException 403 "risk too high (expected X-Risk != high)"].

(** More sample inputs: a process environment of a managed device, a
    verified claim set whose scopes claim is a string, and three calls. *)
Definition managed_environ : gmap string string :=
  <["DEVICE_TRUST" := "managed"]> (<["RISK" := "low"]> ∅).
Definition string_scp_user : gmap string jvalue :=
  <["scp" := JStr "orders:readonly"]> (mint ola_reader 1000).
Definition sample_calls : list call :=
  [mkCall POST_orders (managed_request admin_token) 1100;
   mkCall POST_orders (managed_request reader_token) 1100;
   mkCall POST_orders (managed_request admin_token) 1200].

(** ** The issuer *)

Section IssuerFacts.

Variable hmac : string -> string -> gmap string jvalue -> string.

Lemma scopes_of_role (r : Role) : scopes_of r = role_scopes r.
Proof. by destruct r. Qed.

Lemma mint_iss req now : mint req now !! "iss" = Some (JStr JWT_ISSUER).
Proof. unfold mint. by simplify_map_eq. Qed.

Lemma mint_aud req now : mint req now !! "aud" = Some (JStr JWT_AUDIENCE).
Proof. unfold mint. by simplify_map_eq. Qed.

Lemma mint_iat req now : mint req now !! "iat" = Some (JNum now).
Proof. unfold mint. by simplify_map_eq. Qed.

Lemma mint_exp req now :
  mint req now !! "exp" = Some (JNum (now + JWT_TTL_SECONDS)).
Proof. unfold mint. by simplify_map_eq. Qed.

Lemma mint_sub req now : mint req now !! "sub" = Some (JStr (username req)).
Proof. unfold mint. by simplify_map_eq. Qed.

Lemma mint_role req now :
  mint req now !! "role" = Some (JStr (role_str (role req))).
Proof. unfold mint. by simplify_map_eq. Qed.

Lemma mint_scp req now :
  mint req now !! "scp" = Some (JArr (JStr <$> role_scopes (role req))).
Proof. unfold mint. rewrite <- scopes_of_role. by simplify_map_eq. Qed.

Lemma mint_tenant req now :
  mint req now !! "tenant" = Some (JStr "demo-tenant").
Proof. unfold mint. by simplify_map_eq. Qed.

(** [token] either raises the 401 or returns the encoded claim set. *)
Lemma token_accept req now :
  password req = "pass" ->
  token hmac req now =
  Return (mkTokenResponse (minted_token hmac req now) "bearer"
            JWT_TTL_SECONDS).
Proof.
  intros Hpw. unfold token. by rewrite bool_decide_eq_true_2.
Qed.

Lemma token_reject req now :
  password req <> "pass" ->
  token hmac req now = Raise (mkHTTPException 401 "invalid credentials").
Proof.
  intros Hpw. unfold token. by rewrite bool_decide_eq_false_2.
Qed.

Lemma token_returns req now resp :
  token hmac req now = Return resp ->
  password req = "pass" /\
  resp = mkTokenResponse (minted_token hmac req now) "bearer"
           JWT_TTL_SECONDS.
Proof.
  intros H. destruct (decide (password req = "pass")) as [Hpw|Hpw].
  - rewrite (token_accept _ _ Hpw) in H. by inversion H.
  - by rewrite (token_reject _ _ Hpw) in H.
Qed.

(** Decoding a freshly encoded claim set of the issuer. *)
Lemma decode_minted req now t :
  t <= now + JWT_TTL_SECONDS ->
  jwt_decode hmac (minted_token hmac req now) JWT_SECRET [JWT_ALG]
    JWT_AUDIENCE JWT_ISSUER t = inr (mint req now).
Proof.
  intros Ht. unfold minted_token, jwt_encode, jwt_decode.
  rewrite bool_decide_eq_true_2 by set_solver.
  rewrite bool_decide_eq_true_2 by done.
  unfold get_eq_str, exp_ok.
  rewrite mint_iss, mint_aud, mint_exp. simpl.
  by rewrite !bool_decide_eq_true_2 by done.
Qed.

(** What the role field validates to. *)
Lemma validate_role_Some (v : option jvalue) (r : Role) :
  validate_role v = Some r <->
  (v = None /\ r = reader) \/ v = Some (JStr (role_str r)).
Proof.
  unfold validate_role. destruct v as [[| | |s| |]|]; split;
    try (intros [[??]|?]; done); try done.
  - repeat case_bool_decide; intros [= <-]; right; by subst.
  - intros [[? _]|[= ->]]; [done|]. by destruct r.
  - intros [= <-]. by left.
  - intros [[_ ->]|?]; done.
Qed.

End IssuerFacts.

Section IssuerClaims.

Variable hmac : string -> string -> gmap string jvalue -> string.

(** C1 (round trip): for every accepted credential (the password is the
    demo password; any username; role reader or admin), the token minted
    at [now] decodes, with the same secret, algorithm, expected issuer
    and expected audience and at any time [t] strictly before its
    expires-at, to exactly the claim set that was encoded: subject, role,
    scopes, issuer, audience and tenant are the encoded ones.  The
    enforcement point's [require_jwt] returns that claim set. *)
Theorem issue_decode_roundtrip (req : LoginRequest) (now t exp : Z) :
  password req = "pass" ->
  mint req now !! "exp" = Some (JNum exp) ->
  t < exp ->
  exists resp payload,
    token hmac req now = Return resp /\
    jwt_decode hmac (access_token resp) JWT_SECRET [JWT_ALG]
      JWT_AUDIENCE JWT_ISSUER t = inr payload /\
    require_jwt hmac (Some (access_token resp)) t = Return payload /\
    payload = mint req now /\
    payload !! "sub" = Some (JStr (username req)) /\
    payload !! "role" = Some (JStr (role_str (role req))) /\
    payload !! "scp" = Some (JArr (JStr <$> scopes_of (role req))) /\
    payload !! "iss" = Some (JStr JWT_ISSUER) /\
    payload !! "aud" = Some (JStr JWT_AUDIENCE) /\
    payload !! "tenant" = Some (JStr "demo-tenant").
Proof.
  intros Hpw Hexp Ht.
  rewrite mint_exp in Hexp. injection Hexp as <-.
  assert (Hdec : jwt_decode hmac (minted_token hmac req now) JWT_SECRET
                   [JWT_ALG] JWT_AUDIENCE JWT_ISSUER t
                 = inr (mint req now)) by (apply decode_minted; lia).
  eexists _, (mint req now). split; [by apply token_accept|].
  cbn [access_token]. split; [exact Hdec|]. split.
  { unfold require_jwt. by rewrite Hdec. }
  rewrite scopes_of_role.
  split_and!; auto using mint_sub, mint_role, mint_scp, mint_iss,
    mint_aud, mint_tenant.
Qed.

(** C2 (scope derivation): the scopes of an issued token are a function
    of the requested role alone: [orders:read] for reader, [orders:read]
    and [orders:write] for admin; no other scope appears, and two
    issuances with the same role carry the same scopes whatever their
    usernames and times. *)
Theorem scopes_function_of_role (req : LoginRequest) (now : Z)
    (resp : TokenResponse) :
  token hmac req now = Return resp ->
  exists payload sig scopes,
    access_token resp = Compact JWT_ALG payload sig /\
    payload !! "scp" = Some (JArr (JStr <$> scopes)) /\
    scopes = match role req with
             | reader => ["orders:read"]
             | admin => ["orders:read"; "orders:write"]
             end /\
    (forall s, s ∈ scopes -> s = "orders:read" \/ s = "orders:write") /\
    (forall req' now' resp',
       token hmac req' now' = Return resp' ->
       role req' = role req ->
       exists payload' sig',
         access_token resp' = Compact JWT_ALG payload' sig' /\
         payload' !! "scp" = payload !! "scp").
Proof.
  intros H. apply token_returns in H as [_ ->].
  exists (mint req now), (hmac JWT_SECRET JWT_ALG (mint req now)),
    (role_scopes (role req)).
  split; [done|]. split; [apply mint_scp|]. split; [by destruct (role req)|].
  split.
  - intros s Hs.
    destruct (role req);
      repeat (apply elem_of_cons in Hs as [->|Hs]; [by auto|]);
      by apply elem_of_nil in Hs.
  - intros req' now' resp' H' Hrole.
    apply token_returns in H' as [_ ->].
    exists (mint req' now'), (hmac JWT_SECRET JWT_ALG (mint req' now')).
    split; [done|]. by rewrite !mint_scp, Hrole.
Qed.

(** C8 (authentication policy): [token] returns a response exactly when
    the supplied password is the demo password; then the username is the
    subject claim as supplied; otherwise the 401 "invalid credentials"
    is raised and there is no token. *)
Theorem issuance_iff_demo_password (req : LoginRequest) (now : Z) :
  ((exists resp, token hmac req now = Return resp) <->
   password req = "pass") /\
  (password req = "pass" ->
   exists resp payload sig,
     token hmac req now = Return resp /\
     access_token resp = Compact JWT_ALG payload sig /\
     payload !! "sub" = Some (JStr (username req))) /\
  (password req <> "pass" ->
   token hmac req now = Raise (mkHTTPException 401 "invalid credentials") /\
   forall resp, token hmac req now <> Return resp).
Proof.
  split_and!.
  - split.
    + intros [resp H]. by apply token_returns in H as [? _].
    + intros Hpw. eexists. by apply token_accept.
  - intros Hpw. eexists _, (mint req now), _.
    split; [by apply token_accept|]. split; [done|]. apply mint_sub.
  - intros Hpw. rewrite (token_reject hmac req now Hpw). by split.
Qed.

(** C9 (claim set invariant): every minted claim set has issued-at equal
    to [now] and expires-at 600 seconds later, hence after issued-at; it
    carries the fixed issuer, audience and tenant; and the response
    announces a lifetime of 600 seconds, the TTL constant. *)
Theorem minted_claims_lifetime (req : LoginRequest) (now : Z)
    (resp : TokenResponse) :
  token hmac req now = Return resp ->
  exists payload sig iat exp,
    access_token resp = Compact JWT_ALG payload sig /\
    payload !! "iat" = Some (JNum iat) /\
    payload !! "exp" = Some (JNum exp) /\
    iat = now /\ exp = iat + 600 /\ iat < exp /\
    payload !! "iss" = Some (JStr "demo-auth") /\
    payload !! "aud" = Some (JStr "orders-api") /\
    payload !! "tenant" = Some (JStr "demo-tenant") /\
    expires_in resp = 600 /\
    expires_in resp = JWT_TTL_SECONDS.
Proof.
  intros H. apply token_returns in H as [_ ->].
  exists (mint req now), (hmac JWT_SECRET JWT_ALG (mint req now)),
    now, (now + 600).
  split_and!; auto using mint_iat, mint_exp, mint_iss, mint_aud,
    mint_tenant; lia.
Qed.

(** C10 (role at the issuance boundary): the role field is optional: a
    body without a role validates with role reader, and with the demo
    password the boundary issues it a token whose role claim is "reader"
    and whose scopes are those of a reader, or refuses it with the 401
    with another password; a body whose role is anything but "reader" or
    "admin" is answered with the validation error whatever its password,
    so the authentication check is never reached; and the role claim of
    every issued token is "reader" or "admin": "reader" when the body has
    no role, and the role of the body otherwise. *)
Theorem role_validated_before_authentication (b : LoginBody) (now : Z) :
  (forall u p,
     validate_LoginRequest (mkLoginBody (Some u) (Some p) None)
     = Some (mkLoginRequest u p reader)) /\
  (forall u,
     exists resp payload sig,
       post_token hmac (mkLoginBody (Some u) (Some "pass") None) now
       = Issued resp /\
       access_token resp = Compact JWT_ALG payload sig /\
       payload !! "role" = Some (JStr "reader") /\
       payload !! "scp" = Some (JArr [JStr "orders:read"]) /\
       payload !! "sub" = Some (JStr u)) /\
  (forall u p,
     p <> "pass" ->
     post_token hmac (mkLoginBody (Some u) (Some p) None) now
     = Refused (mkHTTPException 401 "invalid credentials")) /\
  (forall v,
     body_role b = Some v -> v <> JStr "reader" -> v <> JStr "admin" ->
     post_token hmac b now = Unprocessable) /\
  (forall resp,
     post_token hmac b now = Issued resp ->
     exists payload sig,
       access_token resp = Compact JWT_ALG payload sig /\
       (payload !! "role" = Some (JStr "reader") \/
        payload !! "role" = Some (JStr "admin")) /\
       (body_role b = None -> payload !! "role" = Some (JStr "reader")) /\
       (forall s,
          body_role b = Some (JStr s) ->
          payload !! "role" = Some (JStr s))).
Proof.
  split_and!.
  - done.
  - intros u. unfold post_token.
    assert (validate_LoginRequest (mkLoginBody (Some u) (Some "pass") None)
            = Some (mkLoginRequest u "pass" reader)) as -> by done.
    rewrite token_accept by done.
    eexists _, (mint (mkLoginRequest u "pass" reader) now), _.
    split; [done|]. split; [done|].
    by rewrite mint_role, mint_scp, mint_sub.
  - intros u p Hp. unfold post_token.
    assert (validate_LoginRequest (mkLoginBody (Some u) (Some p) None)
            = Some (mkLoginRequest u p reader)) as -> by done.
    by rewrite token_reject.
  - intros v Hv Hr Ha. unfold post_token, validate_LoginRequest.
    rewrite Hv.
    assert (validate_role (Some v) = None) as ->.
    { destruct v; try done. simpl. repeat case_bool_decide; congruence. }
    by destruct (body_username b), (body_password b).
  - intros resp H. unfold post_token, validate_LoginRequest in H.
    destruct (body_username b) as [u|]; [|done].
    destruct (body_password b) as [p|]; [|done].
    destruct (validate_role (body_role b)) as [r|] eqn:Hrole; [|done].
    destruct (token hmac (mkLoginRequest u p r) now) as [resp'| |] eqn:Htok;
      try done.
    injection H as ->. apply token_returns in Htok as [_ ->].
    apply validate_role_Some in Hrole.
    exists (mint (mkLoginRequest u p r) now),
      (hmac JWT_SECRET JWT_ALG (mint (mkLoginRequest u p r) now)).
    split; [done|]. rewrite mint_role. simpl. split_and!.
    + destruct r; auto.
    + intros Hnone. destruct Hrole as [[_ ->]|Hsome]; [done|].
      by rewrite Hnone in Hsome.
    + intros s Hs. destruct Hrole as [[Hnone _]|Hsome].
      * by rewrite Hnone in Hs.
      * rewrite Hs in Hsome. by injection Hsome as ->.
Qed.

End IssuerClaims.

(** ** The enforcement point *)

Section EnforcementFacts.

Variable hmac : string -> string -> gmap string jvalue -> string.

Lemma get_eq_str_true d key s :
  get_eq_str d key s = true <-> d !! key = Some (JStr s).
Proof.
  unfold get_eq_str. destruct (d !! key) as [[]|]; simpl;
    rewrite ?bool_decide_eq_true; split; congruence.
Qed.

(** Every listed reason makes the codec fail. *)
Lemma unverifiable_decode now tok :
  unverifiable hmac now tok ->
  exists err,
    jwt_decode hmac tok JWT_SECRET [JWT_ALG] JWT_AUDIENCE JWT_ISSUER now
    = inl err.
Proof.
  intros H.
  assert (forall alg payload signature,
    tok = Compact alg payload signature ->
    (signature <> hmac JWT_SECRET alg payload \/
     get_eq_str payload "iss" JWT_ISSUER = false \/
     get_eq_str payload "aud" JWT_AUDIENCE = false \/
     exp_ok payload now = false) ->
    exists err,
      jwt_decode hmac tok JWT_SECRET [JWT_ALG] JWT_AUDIENCE JWT_ISSUER now
      = inl err) as Hfail.
  { intros alg payload signature -> Hbad. unfold jwt_decode.
    destruct (bool_decide (alg ∈ [JWT_ALG])); simpl; [|by eexists].
    case_bool_decide as Hsig; simpl; [|by eexists].
    destruct (get_eq_str payload "iss" JWT_ISSUER) eqn:Hiss; simpl;
      [|by eexists].
    destruct (get_eq_str payload "aud" JWT_AUDIENCE) eqn:Haud; simpl;
      [|by eexists].
    destruct (exp_ok payload now) eqn:Hexp; simpl; [|by eexists].
    by destruct Hbad as [?|[?|[?|?]]]. }
  destruct H as [text|alg payload signature Hsig
                |alg payload signature exp Hexp Hlt
                |alg payload signature Hiss|alg payload signature Haud].
  - by eexists.
  - eapply Hfail; [done|]. by left.
  - eapply Hfail; [done|]. do 3 right. unfold exp_ok. rewrite Hexp.
    apply bool_decide_eq_false_2. lia.
  - eapply Hfail; [done|]. right; left.
    apply not_true_is_false. by rewrite get_eq_str_true.
  - eapply Hfail; [done|]. do 2 right; left.
    apply not_true_is_false. by rewrite get_eq_str_true.
Qed.

(** [require_jwt] answers every codec failure with the same exception. *)
Lemma require_jwt_invalid tok now err :
  jwt_decode hmac tok JWT_SECRET [JWT_ALG] JWT_AUDIENCE JWT_ISSUER now
  = inl err ->
  require_jwt hmac (Some tok) now
  = Raise (mkHTTPException 401 "invalid token").
Proof. intros H. unfold require_jwt. by rewrite H. Qed.

Lemma require_jwt_handled c now : require_jwt hmac c now <> Unhandled.
Proof.
  unfold require_jwt. destruct c as [tok|]; [|done].
  by destruct (jwt_decode _ _ _ _ _ _ _).
Qed.

Lemma require_jwt_status c now e :
  require_jwt hmac c now = Raise e -> status_code e = 401.
Proof.
  unfold require_jwt. destruct c as [tok|].
  - destruct (jwt_decode _ _ _ _ _ _ _); [|done]. by intros [= <-].
  - by intros [= <-].
Qed.

Lemma guard_check_status ep user e :
  guard_check ep user = Raise e -> status_code e = 403.
Proof.
  destruct ep; simpl; unfold require_scope, require_role.
  - destruct (py_in _ _) as [[]|]; try done. by intros [= <-].
  - destruct (py_in _ _) as [[]|]; try done. by intros [= <-].
  - destruct (get_eq_str _ _ _); simpl; [done|]. by intros [= <-].
Qed.

Lemma guard_check_returns ep user user' :
  guard_check ep user = Return user' -> user' = user.
Proof.
  destruct ep; simpl; unfold require_scope, require_role.
  - destruct (py_in _ _) as [[]|]; try done. by intros [= <-].
  - destruct (py_in _ _) as [[]|]; try done. by intros [= <-].
  - destruct (get_eq_str _ _ _); simpl; [|done]. by intros [= <-].
Qed.

Lemma require_context_status d r e :
  require_context d r = Raise e -> status_code e = 403.
Proof.
  unfold require_context. repeat case_bool_decide; simpl; try done;
    by intros [= <-].
Qed.

Lemma require_context_handled d r : require_context d r <> Unhandled.
Proof. unfold require_context. by repeat case_bool_decide. Qed.

(** Serving a request, spelled out as a decision table over the three
    dependency functions of the route. *)
Lemma serve_table ep req now orders :
  serve hmac ep req now orders =
  match require_jwt hmac (creds req) now with
  | Raise e => mkServed [dep_require_jwt] (Denied Unauthenticated e) orders
  | Unhandled => mkServed [dep_require_jwt] ServerError orders
  | Return user =>
      match guard_check ep user with
      | Raise e =>
          mkServed [dep_require_jwt; guard ep]
            (Denied (denial_code (guard ep)) e) orders
      | Unhandled => mkServed [dep_require_jwt; guard ep] ServerError orders
      | Return user' =>
          match require_context (x_device_trust req) (x_risk req) with
          | Raise e =>
              mkServed [dep_require_jwt; guard ep; dep_require_context]
                (Denied UntrustedContext e) orders
          | Unhandled =>
              mkServed [dep_require_jwt; guard ep; dep_require_context]
                ServerError orders
          | Return _ctx =>
              mkServed [dep_require_jwt; guard ep; dep_require_context]
                (Allowed (path_function ep user' _ctx orders).1)
                (path_function ep user' _ctx orders).2
          end
      end
  end.
Proof.
  unfold serve, dependencies, solve_require_scope, solve_require_role,
    solve_require_jwt, solve_require_context.
  destruct ep; simpl;
    destruct (require_jwt hmac (creds req) now) as [user| |]; simpl;
    try done.
  - destruct (require_scope _ user) as [user'| |]; simpl; try done.
    by destruct (require_context _ _).
  - destruct (require_scope _ user) as [user'| |]; simpl; try done.
    by destruct (require_context _ _).
  - destruct (require_role _ user) as [user'| |]; simpl; try done.
    by destruct (require_context _ _).
Qed.

(** A path function other than [create_order] leaves the store as it
    is; [create_order] appends one order. *)
Lemma path_function_store ep user ctx orders :
  (path_function ep user ctx orders).2 =
  match ep with
  | POST_orders =>
      let new_id := "X" +:+ format_03d (length orders + 1)%nat in
      (orders ++ [mkOrder new_id 999])%list
  | _ => orders
  end.
Proof. by destruct ep. Qed.

End EnforcementFacts.

Section EnforcementClaims.

Variable hmac : string -> string -> gmap string jvalue -> string.

(** C3 (indistinguishable verification failures): two requests whose
    tokens fail verification, whatever the two failures are (a wrong
    signing secret, an expired expires-at, a mismatched issuer or
    audience, a malformed structure), on any protected routes, get the
    same single answer: the Unauthenticated denial with status 401 and
    the same detail; nothing in it tells the failures apart. *)
Theorem verification_failures_indistinguishable
    (ep1 ep2 : endpoint) (req1 req2 : Request) (tok1 tok2 : token_str)
    (now1 now2 : Z) (orders1 orders2 : list order) (err1 err2 : JWTError) :
  creds req1 = Some tok1 ->
  creds req2 = Some tok2 ->
  jwt_decode hmac tok1 JWT_SECRET [JWT_ALG] JWT_AUDIENCE JWT_ISSUER now1
  = inl err1 ->
  jwt_decode hmac tok2 JWT_SECRET [JWT_ALG] JWT_AUDIENCE JWT_ISSUER now2
  = inl err2 ->
  result (serve hmac ep1 req1 now1 orders1)
  = Denied Unauthenticated (mkHTTPException 401 "invalid token") /\
  result (serve hmac ep2 req2 now2 orders2)
  = result (serve hmac ep1 req1 now1 orders1) /\
  require_jwt hmac (creds req2) now2 = require_jwt hmac (creds req1) now1 /\
  status_code (mkHTTPException 401 "invalid token")
  = external_status Unauthenticated.
Proof.
  intros Hc1 Hc2 H1 H2.
  apply require_jwt_invalid in H1, H2.
  rewrite !serve_table, Hc1, Hc2, H1, H2. done.
Qed.

(** C4 (contextual trust): [require_context] reads the two headers only.
    It denies (403) when the device-trust header is absent, empty or
    anything but "managed", and when the risk header is exactly "high";
    it allows exactly when the device-trust header is "managed" and the
    risk header is absent or anything but "high". *)
Theorem contextual_trust_table (device risk : option string) :
  (device <> Some "managed" ->
   exists e, require_context device risk = Raise e /\ status_code e = 403) /\
  (exists e, require_context None risk = Raise e /\ status_code e = 403) /\
  (exists e,
     require_context (Some "") risk = Raise e /\ status_code e = 403) /\
  (risk = Some "high" ->
   exists e, require_context device risk = Raise e /\ status_code e = 403) /\
  (require_context device risk = Return true <->
   device = Some "managed" /\ risk <> Some "high") /\
  require_context (Some "managed") None = Return true /\
  (forall req req' : Request,
     x_device_trust req = device -> x_risk req = risk ->
     x_device_trust req' = device -> x_risk req' = risk ->
     solve_require_context req' = solve_require_context req).
Proof.
  split_and!.
  - intros Hd. unfold require_context.
    rewrite bool_decide_eq_false_2 by done. by eexists.
  - by eexists.
  - by eexists.
  - intros ->. unfold require_context.
    case_bool_decide; simpl; by eexists.
  - unfold require_context.
    repeat case_bool_decide; simpl; intuition congruence.
  - done.
  - intros req req' Hd Hr Hd' Hr'. unfold solve_require_context.
    by rewrite Hd, Hr, Hd', Hr'.
Qed.

(** C5 (fixed order, short circuit): on every route the dependency
    functions are called in the order authentication, then the route's
    scope or role check, then contextual trust; the first one that
    raises determines the denial, and none after it is called.  In
    particular a verified request that lacks the scope and also comes
    from a non-compliant device is denied with InsufficientScope, and
    [require_context] is not called. *)
Theorem predicates_short_circuit (ep : endpoint) (req : Request)
    (now : Z) (orders : list order) :
  let s := serve hmac ep req now orders in
  match require_jwt hmac (creds req) now with
  | Raise e =>
      called s = [dep_require_jwt] /\ result s = Denied Unauthenticated e
  | Unhandled => False
  | Return user =>
      match guard_check ep user with
      | Raise e =>
          called s = [dep_require_jwt; guard ep] /\
          result s = Denied (denial_code (guard ep)) e
      | Unhandled =>
          called s = [dep_require_jwt; guard ep] /\ result s = ServerError
      | Return _ =>
          called s = [dep_require_jwt; guard ep; dep_require_context] /\
          match require_context (x_device_trust req) (x_risk req) with
          | Raise e => result s = Denied UntrustedContext e
          | Unhandled => False
          | Return _ =>
              result s = Allowed (path_function ep user true orders).1
          end
      end
  end /\
  (forall user scope,
     require_jwt hmac (creds req) now = Return user ->
     required_scope ep = Some scope ->
     py_in scope (default (JArr []) (user !! "scp")) = Some false ->
     x_device_trust req <> Some "managed" ->
     exists e,
       result s = Denied InsufficientScope e /\
       dep_require_context ∉ called s).
Proof.
  intros s. subst s. rewrite serve_table. split.
  - destruct (require_jwt hmac (creds req) now) as [user|e|] eqn:Hjwt.
    + destruct (guard_check ep user) as [user'|e|] eqn:Hg; [|done..].
      apply guard_check_returns in Hg as ->.
      split; [by destruct (require_context _ _)|].
      destruct (require_context _ _) as [[]|e|] eqn:Hctx; try done.
      * exfalso. revert Hctx. unfold require_context.
        by repeat case_bool_decide.
      * by apply require_context_handled in Hctx.
    + done.
    + by apply require_jwt_handled in Hjwt.
  - intros user scope Hjwt Hreq Hin Hdev. rewrite Hjwt.
    assert (guard_check ep user = require_scope scope user /\
            guard ep = dep_require_scope) as [-> Hg]
      by (destruct ep; simplify_eq/=; done).
    unfold require_scope. rewrite Hin, Hg. eexists. split; [done|].
    simpl. rewrite !not_elem_of_cons.
    split_and!; try done; apply not_elem_of_nil.
Qed.

(** C6 (stable external status): a denied request surfaces exactly one
    denial code; Unauthenticated, raised for a missing or an unverifiable
    token, carries status 401, and each of InsufficientScope,
    InsufficientRole and UntrustedContext carries status 403. *)
Theorem denial_status_mapping (ep : endpoint) (req : Request) (now : Z)
    (orders : list order) :
  let s := serve hmac ep req now orders in
  (forall code e,
     result s = Denied code e ->
     status_code e = external_status code /\
     (code = Unauthenticated -> status_code e = 401) /\
     (code <> Unauthenticated -> status_code e = 403) /\
     (forall code' e', result s = Denied code' e' -> code' = code /\ e' = e))
  /\
  (creds req = None ->
   result s = Denied Unauthenticated
                (mkHTTPException 401 "missing bearer token")) /\
  (forall tok err,
     creds req = Some tok ->
     jwt_decode hmac tok JWT_SECRET [JWT_ALG] JWT_AUDIENCE JWT_ISSUER now
     = inl err ->
     result s = Denied Unauthenticated
                  (mkHTTPException 401 "invalid token")).
Proof.
  intros s. subst s. rewrite serve_table. split_and!.
  - intros code e H.
    assert (status_code e = external_status code) as Hst.
    { destruct (require_jwt hmac (creds req) now) as [user|e0|] eqn:Hjwt;
        simpl in H; [|injection H as <- <-|done].
      - destruct (guard_check ep user) as [user'|e0|] eqn:Hg;
          simpl in H; [|injection H as <- <-|done].
        + destruct (require_context _ _) as [c|e0|] eqn:Hctx;
            simpl in H; [done|injection H as <- <-|done].
          by apply require_context_status in Hctx.
        + apply guard_check_status in Hg. by destruct ep.
      - by apply require_jwt_status in Hjwt. }
    split; [done|]. split; [by intros ->|]. split.
    + intros Hne. rewrite Hst. by destruct code.
    + intros code' e' H'. rewrite H in H'. by injection H' as <- <-.
  - intros Hnone. by rewrite Hnone.
  - intros tok err Hsome Hdec. rewrite Hsome.
    by rewrite (require_jwt_invalid hmac tok now err Hdec).
Qed.

(** C7 (no effect on denial): when a request is denied by any predicate
    the path function has not run: the store is what it was and there is
    no response body; a denied [POST /orders] appends nothing and
    yields no created identifier, whereas an allowed one appends exactly
    one order. *)
Theorem denied_leaves_store_unchanged (ep : endpoint) (req : Request)
    (now : Z) (orders : list order) (code : denial) (e : HTTPException) :
  result (serve hmac ep req now orders) = Denied code e ->
  store (serve hmac ep req now orders) = orders /\
  (forall b, result (serve hmac ep req now orders) <> Allowed b) /\
  (ep = POST_orders ->
   length (store (serve hmac ep req now orders)) = length orders /\
   forall ok created created_by,
     result (serve hmac ep req now orders)
     <> Allowed (CreateOrderBody ok created created_by)) /\
  (forall req' now' b,
     result (serve hmac POST_orders req' now' orders) = Allowed b ->
     exists new_id created_by,
       b = CreateOrderBody true new_id created_by /\
       store (serve hmac POST_orders req' now' orders)
       = (orders ++ [mkOrder new_id 999])%list).
Proof.
  intros H.
  assert (store (serve hmac ep req now orders) = orders) as Hstore.
  { revert H. rewrite serve_table.
    destruct (require_jwt hmac (creds req) now) as [user| |]; [|done..].
    destruct (guard_check ep user) as [user'| |]; [|done..].
    by destruct (require_context _ _). }
  split; [done|]. split; [by rewrite H|]. split.
  - intros _. rewrite Hstore. split; [done|]. by rewrite H.
  - intros req' now' b. rewrite serve_table.
    destruct (require_jwt hmac (creds req') now') as [user| |]; [|done..].
    destruct (guard_check POST_orders user) as [user'| |]; [|done..].
    destruct (require_context _ _) as [c| |]; [|done..].
    simpl. intros [= <-]. by eexists _, _.
Qed.

End EnforcementClaims.

(** ** The services at sample inputs *)

(** A reader token reads the orders from a managed device. *)
Example reader_lists_orders :
  called (serve tag_hmac GET_orders (managed_request reader_token) 1100 ORDERS)
  = [dep_require_jwt; dep_require_scope; dep_require_context] /\
  exists caller,
    result (serve tag_hmac GET_orders (managed_request reader_token) 1100
              ORDERS) = Allowed (ListOrdersBody caller ORDERS) /\
    caller !! "sub" = Some (JStr "ola") /\
    caller !! "scp" = Some (JArr [JStr "orders:read"]).
Proof. split; [by vm_compute|]. eexists. by vm_compute. Qed.

(** The same token does not create an order. *)
Example reader_cannot_create :
  serve tag_hmac POST_orders (managed_request reader_token) 1100 ORDERS
  = mkServed [dep_require_jwt; dep_require_scope]
      (Denied InsufficientScope
         (mkHTTPException 403 "missing scope: orders:write"))
      ORDERS.
Proof. by vm_compute. Qed.

(** An admin token creates the third order. *)
Example admin_creates_order :
  serve tag_hmac POST_orders (managed_request admin_token) 1100 ORDERS
  = mkServed [dep_require_jwt; dep_require_scope; dep_require_context]
      (Allowed (CreateOrderBody true "X003" (JStr "ola")))
      [mkOrder "A100" 4250; mkOrder "B200" 1337; mkOrder "X003" 999].
Proof. by vm_compute. Qed.

(** An admin token under high risk does not reach the audit log. *)
Example admin_high_risk_audit :
  serve tag_hmac GET_admin_audit
    (mkRequest (Some admin_token) (Some "managed") (Some "high")) 1100 ORDERS
  = mkServed [dep_require_jwt; dep_require_role; dep_require_context]
      (Denied UntrustedContext
         (mkHTTPException 403 "risk too high (expected X-Risk != high)"))
      ORDERS.
Proof. by vm_compute. Qed.

(** A reader token does not pass the role check of the audit log. *)
Example reader_audit :
  serve tag_hmac GET_admin_audit (managed_request reader_token) 1100 ORDERS
  = mkServed [dep_require_jwt; dep_require_role]
      (Denied InsufficientRole (mkHTTPException 403 "requires role: admin"))
      ORDERS.
Proof. by vm_compute. Qed.

(** The wrong password yields no token. *)
Example wrong_password :
  token tag_hmac ola_wrong 1000
  = Raise (mkHTTPException 401 "invalid credentials").
Proof. by vm_compute. Qed.

(** A token is still accepted in the second it expires and rejected in the
    next one. *)
Example expiry_boundary :
  require_jwt tag_hmac (Some reader_token) 1600
  = Return (mint ola_reader 1000) /\
  require_jwt tag_hmac (Some reader_token) 1601
  = Raise (mkHTTPException 401 "invalid token").
Proof. split; by vm_compute. Qed.

(** A verified token whose scopes claim is a number makes the scope check
    raise a [TypeError]: the request is neither allowed nor denied, and
    [require_context] is not called. *)
Example numeric_scopes_claim :
  serve tag_hmac GET_orders (managed_request numeric_scp_token) 1100 ORDERS
  = mkServed [dep_require_jwt; dep_require_scope] ServerError ORDERS.
Proof. by vm_compute. Qed.

(** The order identifier is padded to three digits and grows beyond. *)
Example format_03d_samples :
  format_03d 3 = "003" /\ format_03d 42 = "042" /\ format_03d 1234 = "1234".
Proof. by vm_compute. Qed.

(** ** The properties at sample inputs *)

Lemma issue_decode_roundtrip_witness :
  password ola_reader = "pass" /\
  mint ola_reader 1000 !! "exp" = Some (JNum 1600) /\
  exists resp payload,
    token tag_hmac ola_reader 1000 = Return resp /\
    require_jwt tag_hmac (Some (access_token resp)) 1599 = Return payload /\
    payload !! "sub" = Some (JStr "ola") /\
    payload !! "role" = Some (JStr "reader").
Proof.
  split; [reflexivity|]. split; [vm_compute; reflexivity|].
  destruct (issue_decode_roundtrip tag_hmac ola_reader 1000 1599 1600)
    as (resp & payload & Htok & _ & Hjwt & _ & Hsub & Hrole & _).
  - reflexivity.
  - vm_compute; reflexivity.
  - lia.
  - exists resp, payload. repeat split; assumption.
Defined.

Lemma scopes_function_of_role_witness :
  token tag_hmac ola_admin 1000 = Return admin_response /\
  exists payload sig,
    access_token admin_response = Compact JWT_ALG payload sig /\
    payload !! "scp" = Some (JArr [JStr "orders:read"; JStr "orders:write"]).
Proof.
  assert (token tag_hmac ola_admin 1000 = Return admin_response) as Htok
    by reflexivity.
  split; [exact Htok|].
  destruct (scopes_function_of_role tag_hmac ola_admin 1000 admin_response
              Htok) as (payload & sig & scopes & Hacc & Hscp & Hsc & _).
  exists payload, sig. split; [exact Hacc|].
  rewrite Hscp, Hsc. reflexivity.
Defined.

Lemma verification_failures_indistinguishable_witness :
  jwt_decode tag_hmac forged_token JWT_SECRET [JWT_ALG] JWT_AUDIENCE
    JWT_ISSUER 1200 = inl BadSignature /\
  jwt_decode tag_hmac admin_token JWT_SECRET [JWT_ALG] JWT_AUDIENCE
    JWT_ISSUER 1601 = inl InvalidClaims /\
  result (serve tag_hmac GET_orders (managed_request forged_token) 1200 ORDERS)
  = Denied Unauthenticated (mkHTTPException 401 "invalid token") /\
  result (serve tag_hmac POST_orders (managed_request admin_token) 1601 ORDERS)
  = result (serve tag_hmac GET_orders (managed_request forged_token) 1200
              ORDERS).
Proof.
  assert (jwt_decode tag_hmac forged_token JWT_SECRET [JWT_ALG] JWT_AUDIENCE
            JWT_ISSUER 1200 = inl BadSignature) as H1
    by (vm_compute; reflexivity).
  assert (jwt_decode tag_hmac admin_token JWT_SECRET [JWT_ALG] JWT_AUDIENCE
            JWT_ISSUER 1601 = inl InvalidClaims) as H2
    by (vm_compute; reflexivity).
  split; [exact H1|]. split; [exact H2|].
  destruct (verification_failures_indistinguishable tag_hmac
              GET_orders POST_orders
              (managed_request forged_token) (managed_request admin_token)
              forged_token admin_token 1200 1601 ORDERS ORDERS
              BadSignature InvalidClaims eq_refl eq_refl H1 H2)
    as (Ha & Hb & _).
  split; assumption.
Defined.

Lemma contextual_trust_table_witness :
  (exists e,
     require_context (Some "unmanaged") (Some "low") = Raise e /\
     status_code e = 403) /\
  (exists e,
     require_context (Some "managed") (Some "high") = Raise e /\
     status_code e = 403) /\
  require_context (Some "managed") (Some "low") = Return true.
Proof.
  split; [|split].
  - destruct (contextual_trust_table (Some "unmanaged") (Some "low"))
      as (Hdev & _).
    apply Hdev. discriminate.
  - destruct (contextual_trust_table (Some "managed") (Some "high"))
      as (_ & _ & _ & Hrisk & _).
    apply Hrisk. reflexivity.
  - destruct (contextual_trust_table (Some "managed") (Some "low"))
      as (_ & _ & _ & _ & Hallow & _).
    apply Hallow. split; [reflexivity|discriminate].
Defined.

Lemma predicates_short_circuit_witness :
  require_jwt tag_hmac (Some reader_token) 1100
  = Return (mint ola_reader 1000) /\
  exists e,
    result (serve tag_hmac POST_orders (unmanaged_request reader_token) 1100
              ORDERS) = Denied InsufficientScope e /\
    dep_require_context
    ∉ called (serve tag_hmac POST_orders (unmanaged_request reader_token)
                1100 ORDERS).
Proof.
  assert (require_jwt tag_hmac (Some reader_token) 1100
          = Return (mint ola_reader 1000)) as Hjwt
    by (vm_compute; reflexivity).
  split; [exact Hjwt|].
  destruct (predicates_short_circuit tag_hmac POST_orders
              (unmanaged_request reader_token) 1100 ORDERS) as (_ & Hboth).
  apply (Hboth (mint ola_reader 1000) "orders:write").
  - exact Hjwt.
  - reflexivity.
  - vm_compute; reflexivity.
  - discriminate.
Defined.

Lemma denial_status_mapping_witness :
  result (serve tag_hmac GET_admin_audit (mkRequest None None None) 0 ORDERS)
  = Denied Unauthenticated (mkHTTPException 401 "missing bearer token") /\
  status_code (mkHTTPException 401 "missing bearer token")
  = external_status Unauthenticated.
Proof.
  destruct (denial_status_mapping tag_hmac GET_admin_audit
              (mkRequest None None None) 0 ORDERS) as (Hstatus & Hmissing & _).
  pose proof (Hmissing eq_refl) as Hden.
  split; [exact Hden|].
  exact (proj1 (Hstatus _ _ Hden)).
Defined.

Lemma denied_leaves_store_unchanged_witness :
  result (serve tag_hmac POST_orders (managed_request reader_token) 1100
            ORDERS)
  = Denied InsufficientScope
      (mkHTTPException 403 "missing scope: orders:write") /\
  store (serve tag_hmac POST_orders (managed_request reader_token) 1100 ORDERS)
  = ORDERS.
Proof.
  assert (result (serve tag_hmac POST_orders (managed_request reader_token)
                    1100 ORDERS)
          = Denied InsufficientScope
              (mkHTTPException 403 "missing scope: orders:write")) as Hden
    by (vm_compute; reflexivity).
  split; [exact Hden|].
  exact (proj1 (denied_leaves_store_unchanged tag_hmac POST_orders
                  (managed_request reader_token) 1100 ORDERS _ _ Hden)).
Defined.

Lemma issuance_iff_demo_password_witness :
  (exists resp, token tag_hmac ola_reader 1000 = Return resp) /\
  token tag_hmac ola_wrong 1000
  = Raise (mkHTTPException 401 "invalid credentials").
Proof.
  split.
  - destruct (issuance_iff_demo_password tag_hmac ola_reader 1000)
      as (Hiff & _).
    apply Hiff. reflexivity.
  - destruct (issuance_iff_demo_password tag_hmac ola_wrong 1000)
      as (_ & _ & Hwrong).
    apply Hwrong. discriminate.
Defined.

Lemma minted_claims_lifetime_witness :
  token tag_hmac ola_admin 1000 = Return admin_response /\
  exists payload sig,
    access_token admin_response = Compact JWT_ALG payload sig /\
    payload !! "iat" = Some (JNum 1000) /\
    payload !! "exp" = Some (JNum 1600) /\
    expires_in admin_response = 600.
Proof.
  assert (token tag_hmac ola_admin 1000 = Return admin_response) as Htok
    by reflexivity.
  split; [exact Htok|].
  destruct (minted_claims_lifetime tag_hmac ola_admin 1000 admin_response
              Htok)
    as (payload & sig & iat & exp & Hacc & Hiat & Hexp & -> & -> & _ & _ & _
        & _ & Hin & _).
  exists payload, sig. repeat split; assumption.
Defined.

Lemma role_validated_before_authentication_witness :
  post_token tag_hmac root_body 1000 = Unprocessable /\
  post_token tag_hmac (mkLoginBody (Some "ola") (Some "wrong") None) 1000
  = Refused (mkHTTPException 401 "invalid credentials") /\
  exists payload sig,
    access_token admin_response = Compact JWT_ALG payload sig /\
    payload !! "role" = Some (JStr "admin").
Proof.
  split; [|split].
  - destruct (role_validated_before_authentication tag_hmac root_body 1000)
      as (_ & _ & _ & Hreject & _).
    apply (Hreject (JStr "root")); [reflexivity|discriminate|discriminate].
  - destruct (role_validated_before_authentication tag_hmac root_body 1000)
      as (_ & _ & Hrefused & _).
    apply Hrefused. discriminate.
  - destruct (role_validated_before_authentication tag_hmac admin_body 1000)
      as (_ & _ & _ & _ & Hissued).
    destruct (Hissued admin_response eq_refl)
      as (payload & sig & Hacc & _ & _ & Hrole).
    exists payload, sig. split; [exact Hacc|].
    apply Hrole. reflexivity.
Defined.

(** ** Further properties of the enforcement point *)

Section StringFacts.

Lemma append_String (c : Ascii.ascii) (a b : string) :
  String c a +:+ b = String c (a +:+ b).
Proof. reflexivity. Qed.

Lemma append_empty (b : string) : "" +:+ b = b.
Proof. reflexivity. Qed.

Lemma substring_at_0 (k : nat) (t s : string) :
  String.substring 0 k t = s -> String.length s = k ->
  exists post, t = s +:+ post.
Proof.
  revert t s. induction k as [|k IH]; intros t s Hsub Hlen.
  - destruct s; [|done]. by exists t.
  - destruct t as [|c t]; simpl in Hsub; subst s; [done|].
    simpl in Hlen. destruct (IH t _ eq_refl) as [post Hpost]; [lia|].
    exists post. rewrite append_String. by f_equal.
Qed.

Lemma substring_splits (m k : nat) (t s : string) :
  String.substring m k t = s -> String.length s = k ->
  exists pre post, t = pre +:+ s +:+ post.
Proof.
  revert t. induction m as [|m IH]; intros t Hsub Hlen.
  - destruct (substring_at_0 k t s Hsub Hlen) as [post ->]. by exists "", post.
  - destruct t as [|c t]; simpl in Hsub.
    + subst s. exists "", "". by destruct k.
    + destruct (IH t Hsub Hlen) as (pre & post & ->).
      by exists (String c pre), post.
Qed.

Lemma substring_of_append (pre s post : string) :
  String.substring (String.length pre) (String.length s)
    (pre +:+ s +:+ post) = s.
Proof.
  induction pre as [|c pre IH]; [|by rewrite append_String].
  rewrite append_empty. clear. simpl. induction s as [|c s IH].
  - by destruct post.
  - rewrite append_String. simpl. by rewrite IH.
Qed.

(** The substring test finds exactly the strings that occur in [t]. *)
Lemma substringb_occurs (s t : string) :
  substringb s t = true <-> exists pre post, t = pre +:+ s +:+ post.
Proof.
  unfold substringb. split.
  - destruct (String.index 0 s t) as [m|] eqn:Hidx; [|done]. intros _.
    apply String.index_correct1 in Hidx. by eapply substring_splits.
  - intros (pre & post & ->).
    destruct (String.index 0 s (pre +:+ s +:+ post)) as [m|] eqn:Hidx;
      [done|].
    destruct s as [|c s].
    + by destruct pre, post.
    + exfalso.
      eapply (String.index_correct3 0 (String.length pre));
        [exact Hidx|done|lia|].
      apply substring_of_append.
Qed.

Lemma existsb_py_eq_str (s : string) (l : list jvalue) :
  existsb (fun x => py_eq_str x s) l = true <-> JStr s ∈ l.
Proof.
  induction l as [|x l IH]; simpl.
  - by rewrite elem_of_nil.
  - rewrite orb_true_iff, IH, elem_of_cons. unfold py_eq_str.
    destruct x; rewrite ?bool_decide_eq_true; intuition congruence.
Qed.

Lemma existsb_key (s : string) (kvs : list (string * jvalue)) :
  existsb (fun kv => bool_decide (kv.1 = s)) kvs = true <-> s ∈ kvs.*1.
Proof.
  induction kvs as [|kv kvs IH]; simpl.
  - by rewrite elem_of_nil.
  - rewrite orb_true_iff, IH, elem_of_cons, bool_decide_eq_true.
    intuition congruence.
Qed.

End StringFacts.

(** X1 (scope check by claim shape): [require_scope] denies with 403 when
    the claim set has no scopes claim; on a list it passes exactly when the
    scope is an element; on a string it passes exactly when the scope
    occurs in it as a substring; on an object it passes exactly when the
    scope is a key; on null, a boolean or a number the membership test
    raises and nothing is returned or denied. *)
Theorem require_scope_by_claim_shape (scope : string)
    (user : gmap string jvalue) :
  let denied :=
    Raise (mkHTTPException 403 ("missing scope: " +:+ scope)) in
  match user !! "scp" with
  | None => require_scope scope user = denied
  | Some (JArr l) =>
      (JStr scope ∈ l -> require_scope scope user = Return user) /\
      (JStr scope ∉ l -> require_scope scope user = denied)
  | Some (JStr t) =>
      ((exists pre post, t = pre +:+ scope +:+ post) ->
       require_scope scope user = Return user) /\
      (~ (exists pre post, t = pre +:+ scope +:+ post) ->
       require_scope scope user = denied)
  | Some (JObj kvs) =>
      (scope ∈ kvs.*1 -> require_scope scope user = Return user) /\
      (scope ∉ kvs.*1 -> require_scope scope user = denied)
  | Some JNull | Some (JBool _) | Some (JNum _) =>
      require_scope scope user = Unhandled
  end.
Proof.
  intros denied. subst denied. unfold require_scope.
  destruct (user !! "scp") as [[| | | t | l | kvs]|]; simpl; try done.
  - pose proof (substringb_occurs scope t) as Hocc.
    destruct (substringb scope t); split; intros H; try done.
    + destruct H. by apply Hocc.
    + by apply Hocc in H.
  - pose proof (existsb_py_eq_str scope l) as Hmem.
    destruct (existsb _ l); split; intros H; try done.
    + destruct H. by apply Hmem.
    + by apply Hmem in H.
  - pose proof (existsb_key scope kvs) as Hmem.
    destruct (existsb _ kvs); split; intros H; try done.
    + destruct H. by apply Hmem.
    + by apply Hmem in H.
Qed.

(** X2 (role check is exact and total): [require_role] returns the user
    exactly when the role claim is the very string asked for; a missing
    role claim, a claim of another JSON type and any other string are
    denied with 403 and the detail that names the required role; the
    check never lets an exception other than this one escape. *)
Theorem require_role_exact (role : string) (user : gmap string jvalue) :
  (require_role role user = Return user <->
   user !! "role" = Some (JStr role)) /\
  (user !! "role" <> Some (JStr role) ->
   require_role role user
   = Raise (mkHTTPException 403 ("requires role: " +:+ role))) /\
  (user !! "role" = None ->
   require_role role user
   = Raise (mkHTTPException 403 ("requires role: " +:+ role))) /\
  require_role role user <> Unhandled.
Proof.
  unfold require_role. pose proof (get_eq_str_true user "role" role) as Hget.
  destruct (get_eq_str user "role" role); simpl.
  - assert (user !! "role" = Some (JStr role)) as Hrole by by apply Hget.
    split_and!;
      [done|intros H; by destruct H
      |intros Hnone; by rewrite Hnone in Hrole|done].
  - assert (user !! "role" <> Some (JStr role)) as Hrole
      by (intros H; by apply Hget in H).
    split_and!; [split; [done|intros H; by destruct Hrole]|done..].
Qed.

Section MoreEnforcement.

Variable hmac : string -> string -> gmap string jvalue -> string.

Lemma require_context_trusted d r :
  d = Some "managed" -> r <> Some "high" -> require_context d r = Return true.
Proof.
  intros -> Hr. unfold require_context.
  rewrite bool_decide_eq_true_2 by done.
  by rewrite bool_decide_eq_false_2 by done.
Qed.

(** X3 (what each role may do): with the claim set that the issuer mints
    for a login request, presented from a managed device whose risk is not
    high, every role lists the orders; an admin creates an order, which is
    appended with the next identifier and attributed to the username, and
    reads the audit log; a reader is denied the creation with
    InsufficientScope and the audit log with InsufficientRole, both 403,
    and leaves the store unchanged. *)
Theorem role_authorization_matrix (ep : endpoint) (req : Request)
    (login : LoginRequest) (now t : Z) (orders : list order) :
  require_jwt hmac (creds req) t = Return (mint login now) ->
  x_device_trust req = Some "managed" ->
  x_risk req <> Some "high" ->
  let s := serve hmac ep req t orders in
  let new_id := "X" +:+ format_03d (length orders + 1)%nat in
  match ep, role login with
  | GET_orders, _ =>
      exists caller,
        result s = Allowed (ListOrdersBody caller orders) /\
        caller !! "sub" = Some (JStr (username login)) /\
        caller !! "role" = Some (JStr (role_str (role login))) /\
        store s = orders
  | POST_orders, admin =>
      result s
      = Allowed (CreateOrderBody true new_id (JStr (username login))) /\
      store s = (orders ++ [mkOrder new_id 999])%list
  | POST_orders, reader =>
      result s
      = Denied InsufficientScope
          (mkHTTPException 403 "missing scope: orders:write") /\
      store s = orders
  | GET_admin_audit, admin =>
      exists caller events,
        result s
        = Allowed (AdminAuditBody true "audit log access granted" caller
                     events) /\
        caller !! "sub" = Some (JStr (username login)) /\
        store s = orders
  | GET_admin_audit, reader =>
      result s
      = Denied InsufficientRole (mkHTTPException 403 "requires role: admin") /\
      store s = orders
  end.
Proof.
  intros Hjwt Hdev Hrisk s new_id. subst s new_id.
  rewrite serve_table, Hjwt, (require_context_trusted _ _ Hdev Hrisk).
  destruct ep; simpl guard_check; unfold require_scope, require_role,
    get_eq_str, py_get; rewrite ?mint_scp, ?mint_role;
    destruct (role login) eqn:Hrole; simpl; try done.
  - eexists. split; [done|]. unfold py_get.
    rewrite mint_sub, mint_role, Hrole. simpl. split_and!; by simplify_map_eq.
  - eexists. split; [done|]. unfold py_get.
    rewrite mint_sub, mint_role, Hrole. simpl. split_and!; by simplify_map_eq.
  - eexists _, _. split; [done|]. unfold py_get.
    rewrite mint_sub. simpl. split_and!; by simplify_map_eq.
Qed.

Lemma require_jwt_known c now e :
  require_jwt hmac c now = Raise e ->
  e = mkHTTPException 401 "missing bearer token" \/
  e = mkHTTPException 401 "invalid token".
Proof.
  unfold require_jwt. destruct c as [tok|].
  - destruct (jwt_decode _ _ _ _ _ _ _); [|done]. intros [= <-]. by right.
  - intros [= <-]. by left.
Qed.

(** X4 (denials carry fixed texts): whatever the request, the exception of
    a denial is one of the seven that the dependency functions spell out;
    none of them contains anything taken from the token, from the headers
    or from the decoder's error. *)
Theorem denial_exception_known (ep : endpoint) (req : Request) (now : Z)
    (orders : list order) (code : denial) (e : HTTPException) :
  result (serve hmac ep req now orders) = Denied code e ->
  e ∈ denial_exceptions.
Proof.
  rewrite serve_table. unfold denial_exceptions.
  destruct (require_jwt hmac (creds req) now) as [user|e0|] eqn:Hjwt;
    simpl; [|intros [= <- <-]|done].
  - destruct (guard_check ep user) as [user'|e0|] eqn:Hg;
      simpl; [|intros [= <- <-]|done].
    + unfold require_context. repeat case_bool_decide; simpl; try done;
        intros [= <- <-]; rewrite !elem_of_cons; tauto.
    + revert Hg. destruct ep; simpl; unfold require_scope, require_role.
      * destruct (py_in _ _) as [[]|]; try done. intros [= <-].
        rewrite !elem_of_cons. tauto.
      * destruct (py_in _ _) as [[]|]; try done. intros [= <-].
        rewrite !elem_of_cons. tauto.
      * destruct (get_eq_str _ _ _); simpl; [done|]. intros [= <-].
        rewrite !elem_of_cons. tauto.
  - apply require_jwt_known in Hjwt as [->| ->]; rewrite !elem_of_cons; tauto.
Qed.

End MoreEnforcement.

(** ** The store under sequences of requests *)

Section IdentifierFacts.

(** A decimal numeral of a positive number starts with a digit other than
    zero. *)
Lemma pretty_N_go_head (x : N) (s : string) :
  (0 < x)%N ->
  exists c r, pretty_N_go x s = String c r /\ c <> "0"%char.
Proof.
  revert s. induction (N.lt_wf_0 x) as [x _ IH]; intros s Hx.
  rewrite pretty_N_go_step by done.
  destruct (decide (x < 10)%N) as [Hlt|Hge].
  - rewrite N.div_small, pretty_N_go_0 by done.
    rewrite N.mod_small by done. eexists _, _. split; [done|].
    assert (x = 1 \/ x = 2 \/ x = 3 \/ x = 4 \/ x = 5 \/ x = 6
            \/ x = 7 \/ x = 8 \/ x = 9)%N as Hcases by lia.
    by destruct Hcases as [->|[->|[->|[->|[->|[->|[->|[->| ->]]]]]]]].
  - apply IH.
    + apply N.div_lt; lia.
    + apply N.div_str_pos. lia.
Qed.

Lemma pretty_nat_canonical (n : nat) :
  pretty n = "0" \/ exists c r, pretty n = String c r /\ c <> "0"%char.
Proof.
  unfold pretty, pretty_nat, pretty, pretty_N.
  case_decide as Hn; [by left|right]. apply pretty_N_go_head. lia.
Qed.

Lemma zeros_S (k : nat) :
  String.concat "" (replicate (S k) "0")
  = String "0" (String.concat "" (replicate k "0")).
Proof. by destruct k. Qed.

(** Padding with zeros keeps numerals apart. *)
Lemma padded_inj (a b : nat) (p q : string) :
  (p = "0" \/ exists c r, p = String c r /\ c <> "0"%char) ->
  (q = "0" \/ exists c r, q = String c r /\ c <> "0"%char) ->
  String.concat "" (replicate a "0") +:+ p
  = String.concat "" (replicate b "0") +:+ q ->
  p = q.
Proof.
  assert (forall k p q,
    (p = "0" \/ exists c r, p = String c r /\ c <> "0"%char) ->
    (q = "0" \/ exists c r, q = String c r /\ c <> "0"%char) ->
    p = String.concat "" (replicate (S k) "0") +:+ q -> False) as Hoff.
  { intros k p' q' Hp Hq. rewrite zeros_S, append_String. intros ->.
    destruct Hp as [[= Hnil]|(c & r & [= <- _] & Hc)]; [|done].
    destruct k.
    - rewrite append_empty in Hnil. subst q'.
      by destruct Hq as [?|(? & ? & ? & ?)].
    - by rewrite zeros_S, append_String in Hnil. }
  revert b. induction a as [|a IH]; intros [|b] Hp Hq.
  - by rewrite !append_empty.
  - change (String.concat "" (replicate 0 "0")) with "".
    rewrite append_empty. intros H. by destruct (Hoff b p q).
  - change (String.concat "" (replicate 0 "0")) with "".
    rewrite append_empty. intros H. by destruct (Hoff a q p).
  - rewrite !zeros_S, !append_String. intros [= H]. by apply (IH b).
Qed.

Lemma format_03d_inj (n m : nat) : format_03d n = format_03d m -> n = m.
Proof.
  unfold format_03d. intros H.
  apply (inj pretty). eapply padded_inj; [..|exact H];
    apply pretty_nat_canonical.
Qed.

Lemma create_order_store user ctx orders :
  (create_order user ctx orders).2
  = (orders ++ created_orders (length orders) 1)%list.
Proof.
  unfold create_order, created_orders. simpl.
  by rewrite Nat.add_0_r.
Qed.

Lemma created_orders_S (n k : nat) :
  created_orders n (S k)
  = (created_orders n k ++ created_orders (n + k) 1)%list.
Proof.
  unfold created_orders. rewrite seq_S, fmap_app. simpl.
  by rewrite Nat.add_0_r.
Qed.

Lemma created_orders_length (n k : nat) : length (created_orders n k) = k.
Proof. unfold created_orders. by rewrite length_fmap, length_seq. Qed.

Lemma created_orders_cons (n k : nat) :
  (created_orders n 1 ++ created_orders (S n) k)%list
  = created_orders n (S k).
Proof.
  unfold created_orders. simpl. f_equal.
  rewrite <- seq_shift, <- list_fmap_compose. apply list_fmap_ext.
  intros _ i _. simpl. do 3 f_equal. lia.
Qed.

Lemma string_length_append (a b : string) :
  String.length (a +:+ b) = (String.length a + String.length b)%nat.
Proof.
  induction a as [|c a IH]; [done|]. rewrite append_String. simpl.
  by rewrite IH.
Qed.

Lemma zeros_length (k : nat) :
  String.length (String.concat "" (replicate k "0")) = k.
Proof.
  induction k as [|k IH]; [done|]. rewrite zeros_S. simpl. by rewrite IH.
Qed.

Lemma digit_value_char (x : N) :
  (x < 10)%N -> digit_value (pretty_N_char x) = Some x.
Proof.
  intros Hx.
  assert (x = 0 \/ x = 1 \/ x = 2 \/ x = 3 \/ x = 4 \/ x = 5 \/ x = 6
          \/ x = 7 \/ x = 8 \/ x = 9)%N as Hcases by lia.
  by destruct Hcases
    as [->|[->|[->|[->|[->|[->|[->|[->|[->| ->]]]]]]]]].
Qed.

(** Reading the digits that [pretty_N_go] puts in front of [s]. *)
Lemma read_digits_pretty_go (x : N) :
  exists k, forall acc s,
    read_digits acc (pretty_N_go x s) = read_digits (acc * 10 ^ k + x)%N s.
Proof.
  induction (N.lt_wf_0 x) as [x _ IH].
  destruct (decide (x = 0)%N) as [->|Hx].
  - exists 0%N. intros acc s. rewrite pretty_N_go_0. f_equal. lia.
  - destruct (IH (x `div` 10)%N) as [k Hk]; [apply N.div_lt; lia|].
    exists (N.succ k). intros acc s.
    rewrite pretty_N_go_step by lia. rewrite Hk. simpl.
    rewrite digit_value_char by (apply N.mod_lt; lia).
    f_equal. rewrite N.pow_succ_r'.
    pose proof (N.div_mod x 10). lia.
Qed.

Lemma read_digits_zeros (k : nat) (p : string) :
  read_digits 0 (String.concat "" (replicate k "0") +:+ p)
  = read_digits 0 p.
Proof.
  induction k as [|k IH]; [done|]. by rewrite zeros_S, append_String.
Qed.

(** The 03d rendering reads back as the number it renders. *)
Lemma decimal_value_format_03d (n : nat) :
  decimal_value (format_03d n) = Some (N.of_nat n).
Proof.
  assert (read_digits 0 (format_03d n) = Some (N.of_nat n)) as Hread.
  { unfold format_03d. rewrite read_digits_zeros.
    unfold pretty, pretty_nat, pretty, pretty_N.
    case_decide as Hn; [by rewrite Hn|].
    destruct (read_digits_pretty_go (N.of_nat n)) as [k Hk].
    rewrite Hk. reflexivity. }
  unfold decimal_value. destruct (format_03d n) eqn:Hfmt; [|done].
  apply (f_equal String.length) in Hfmt. unfold format_03d in Hfmt.
  rewrite string_length_append, zeros_length in Hfmt. simpl in Hfmt. lia.
Qed.

(** Beyond three digits the rendering has no leading zero. *)
Lemma format_03d_unpadded (n : nat) (rest : string) :
  (3 < String.length (format_03d n))%nat -> format_03d n <> String "0" rest.
Proof.
  unfold format_03d. rewrite string_length_append, zeros_length. intros Hlen.
  replace (3 - String.length (pretty n))%nat with 0%nat by lia.
  change (String.concat "" (replicate 0 "0")) with "". rewrite append_empty.
  destruct (pretty_nat_canonical n) as [Hz|(c & r & Hp & Hc)].
  - rewrite Hz in Hlen. simpl in Hlen. lia.
  - rewrite Hp. intros [= -> _]. done.
Qed.

End IdentifierFacts.

Section StoreProperties.

Variable hmac : string -> string -> gmap string jvalue -> string.

(** One request either leaves the store or, when it is an allowed
    [POST /orders], appends the next order. *)
Lemma serve_store_cases ep req now orders :
  store (serve hmac ep req now orders) = orders \/
  (ep = POST_orders /\
   store (serve hmac ep req now orders)
   = (orders ++ created_orders (length orders) 1)%list).
Proof.
  rewrite serve_table.
  destruct (require_jwt hmac (creds req) now) as [user| |]; [|by left..].
  destruct (guard_check ep user) as [user'| |]; [|by left..].
  destruct (require_context _ _) as [c| |]; [|by left..].
  cbn [store]. destruct ep; [by left| |by left].
  right. split; [done|]. apply create_order_store.
Qed.

Lemma serve_all_created calls orders :
  exists k,
    serve_all hmac calls orders
    = (orders ++ created_orders (length orders) k)%list.
Proof.
  revert orders. induction calls as [|c rest IH]; intros orders; simpl.
  - exists 0%nat. by rewrite app_nil_r.
  - destruct (serve_store_cases (call_endpoint c) (call_request c)
                (call_time c) orders) as [->|[_ ->]]; [apply IH|].
    destruct (IH (orders ++ created_orders (length orders) 1)%list)
      as [k ->].
    exists (S k).
    rewrite <- app_assoc, length_app, created_orders_length.
    by rewrite Nat.add_1_r, created_orders_cons.
Qed.

(** X6 (the store is append-only): after any sequence of requests, served
    one after another, the store is the initial store followed by at most
    one new order per request, each with the next free position in its
    identifier and the fixed total; no order is removed or changed, and a
    sequence without a [POST /orders] leaves the store as it was. *)
Theorem store_append_only (calls : list call) (orders : list order) :
  exists k,
    (k <= length calls)%nat /\
    serve_all hmac calls orders
    = (orders ++ created_orders (length orders) k)%list /\
    (Forall (fun c => call_endpoint c <> POST_orders) calls -> k = 0%nat).
Proof.
  revert orders. induction calls as [|c rest IH]; intros orders; simpl.
  - exists 0%nat. by rewrite app_nil_r.
  - destruct (serve_store_cases (call_endpoint c) (call_request c)
                (call_time c) orders) as [->|[Hpost ->]].
    + destruct (IH orders) as (k & Hk & Hstore & Hnone).
      exists k. split; [lia|]. split; [done|].
      intros Hall. apply Hnone. by eapply Forall_cons_1.
    + destruct (IH (orders ++ created_orders (length orders) 1)%list)
        as (k & Hk & -> & _).
      exists (S k). split; [lia|]. split.
      * rewrite <- app_assoc, length_app, created_orders_length.
        by rewrite Nat.add_1_r, created_orders_cons.
      * intros Hall. apply Forall_cons_1 in Hall as [Hc _]. by destruct Hc.
Qed.

(** X7 (identifiers stay unique): when the identifiers of the store are
    pairwise distinct and none of them is an identifier that a later
    creation would produce, they are still pairwise distinct after any
    sequence of requests served one after another. *)
Theorem store_identifiers_unique (calls : list call) (orders : list order) :
  NoDup (order_id <$> orders) ->
  (forall o j,
     o ∈ orders -> (length orders < j)%nat ->
     order_id o <> "X" +:+ format_03d j) ->
  NoDup (order_id <$> serve_all hmac calls orders).
Proof.
  intros Hnodup Hfresh.
  destruct (serve_all_created calls orders) as [k ->].
  rewrite fmap_app. apply NoDup_app. split_and!; [done|..].
  - intros x [o [-> Ho]]%list_elem_of_fmap [o' [Hx Ho']]%list_elem_of_fmap.
    unfold created_orders in Ho'.
    apply list_elem_of_fmap in Ho' as [i [-> _]]. simpl in Hx.
    by apply (Hfresh o (length orders + i + 1)%nat); [|lia|].
  - unfold created_orders. rewrite <- list_fmap_compose.
    apply NoDup_fmap_2_strong; [|apply NoDup_seq].
    intros i j _ _ [= H]. apply format_03d_inj in H. lia.
Qed.

(** X8 (an identifier tells the size of the store): the identifier that
    [create_order] hands out is "X" followed by the decimal numeral of the
    size the store will have, padded with zeros to three digits and not
    beyond; the new order is appended at the end under that identifier;
    and two creations get the same identifier only when the two stores
    hold the same number of orders. *)
Theorem created_identifier_determines_size
    (user1 user2 : gmap string jvalue) (ctx1 ctx2 : bool)
    (orders1 orders2 : list order) (id1 id2 : string) (by1 by2 : jvalue)
    (ok1 ok2 : bool) :
  (create_order user1 ctx1 orders1).1 = CreateOrderBody ok1 id1 by1 ->
  (create_order user2 ctx2 orders2).1 = CreateOrderBody ok2 id2 by2 ->
  (exists digits,
     id1 = String "X" digits /\
     (3 <= String.length digits)%nat /\
     decimal_value digits = Some (N.of_nat (length orders1 + 1)) /\
     ((3 < String.length digits)%nat ->
      forall rest, digits <> String "0" rest)) /\
  (id1 = id2 -> length orders1 = length orders2) /\
  (create_order user1 ctx1 orders1).2
  = (orders1 ++ [mkOrder id1 999])%list.
Proof.
  unfold create_order. simpl. intros [= _ <- _] [= _ <- _]. split_and!.
  - exists (format_03d (length orders1 + 1)). split_and!.
    + done.
    + unfold format_03d. rewrite string_length_append, zeros_length. lia.
    + apply decimal_value_format_03d.
    + intros Hlen rest. by apply format_03d_unpadded.
  - rewrite !append_String, !append_empty. intros [= H].
    apply format_03d_inj in H. lia.
  - done.
Qed.

(** X9 (reading never writes): [GET /orders] and [GET /admin/audit] leave
    the store as it is whatever their verdict, and an allowed
    [GET /orders] lists the whole store, whoever the caller is, next to
    the caller's subject, role, scopes and tenant claims as the token
    carries them (null for a claim the token lacks). *)
Theorem reads_leave_store (ep : endpoint) (req : Request) (now : Z)
    (orders : list order) :
  (ep <> POST_orders -> store (serve hmac ep req now orders) = orders) /\
  (forall b,
     result (serve hmac GET_orders req now orders) = Allowed b ->
     exists user caller,
       require_jwt hmac (creds req) now = Return user /\
       b = ListOrdersBody caller orders /\
       dom caller = {["sub"; "role"; "scp"; "tenant"]} /\
       forall key,
         key ∈ ["sub"; "role"; "scp"; "tenant"] ->
         caller !! key = Some (default JNull (user !! key))).
Proof.
  split.
  - intros Hep.
    by destruct (serve_store_cases ep req now orders) as [?|[? _]].
  - intros b. rewrite serve_table.
    destruct (require_jwt hmac (creds req) now) as [user| |]; [|done..].
    destruct (guard_check GET_orders user) as [user'| |] eqn:Hg; [|done..].
    apply guard_check_returns in Hg as ->.
    destruct (require_context _ _) as [c| |]; [|done..].
    simpl. intros [= <-]. eexists user, _. split; [done|]. split; [done|].
    split.
    + rewrite !dom_insert_L, dom_empty_L. set_solver.
    + intros key Hkey. unfold py_get.
      repeat (apply elem_of_cons in Hkey as [->|Hkey];
              [by simplify_map_eq|]).
      by apply elem_of_nil in Hkey.
Qed.

End StoreProperties.

(** ** The issuance boundary and the demo clients *)

Section ClientProperties.

Variable hmac : string -> string -> gmap string jvalue -> string.

(** X10 (when the issuer answers what): [POST /token] issues a token
    exactly when the body has a username, its password is "pass" and its
    role is absent, "reader" or "admin"; a body without username or
    without password is a validation error; the only exception the route
    raises is the 401 "invalid credentials", and only for a valid body
    with another password. *)
Theorem issuance_outcomes (b : LoginBody) (now : Z) :
  ((exists resp, post_token hmac b now = Issued resp) <->
   (exists u, body_username b = Some u) /\
   body_password b = Some "pass" /\
   (body_role b = None \/ body_role b = Some (JStr "reader") \/
    body_role b = Some (JStr "admin"))) /\
  (body_username b = None \/ body_password b = None ->
   post_token hmac b now = Unprocessable) /\
  (forall e,
     post_token hmac b now = Refused e ->
     e = mkHTTPException 401 "invalid credentials" /\
     exists login,
       validate_LoginRequest b = Some login /\ password login <> "pass") /\
  post_token hmac b now <> Failed.
Proof.
  unfold post_token, validate_LoginRequest.
  destruct (body_username b) as [u|], (body_password b) as [p|];
    try (split_and!; [split; [by intros [? ?]|by intros ([? ?] & ? & ?)]
                     |done..]).
  destruct (validate_role (body_role b)) as [r|] eqn:Hrole.
  - apply validate_role_Some in Hrole.
    assert (body_role b = None \/ body_role b = Some (JStr "reader") \/
            body_role b = Some (JStr "admin")) as Hr.
    { destruct Hrole as [[-> _]| ->]; [by left|]. destruct r; auto. }
    destruct (decide (p = "pass")) as [->|Hp].
    + rewrite token_accept by done.
      split_and!; [|by intros [?|?]|done..].
      split; [intros _; by eauto|intros _; by eexists].
    + rewrite token_reject by done.
      split_and!; [|by intros [?|?]| |done].
      * split; [by intros [? ?]|]. intros (_ & [= ?] & _). done.
      * intros e [= <-]. split; [done|]. by eexists.
  - split_and!; [|done..].
    split; [by intros [? ?]|]. intros (_ & _ & Hr). exfalso.
    revert Hrole. by destruct Hr as [->|[->| ->]].
Qed.

(** X11 (the payload has eight claims and no secret): the minted claim
    set has exactly the keys iss, aud, iat, exp, sub, role, scp and
    tenant, and it is the same for two requests with the same username and
    role at the same time: the password is not part of the token. *)
Theorem minted_claim_keys (req : LoginRequest) (now : Z) :
  dom (mint req now)
  = {["iss"; "aud"; "iat"; "exp"; "sub"; "role"; "scp"; "tenant"]} /\
  size (mint req now) = 8%nat /\
  (forall req',
     username req' = username req -> role req' = role req ->
     mint req' now = mint req now).
Proof.
  split_and!.
  - unfold mint. rewrite !dom_insert_L, dom_empty_L. set_solver.
  - unfold mint. by rewrite !map_size_insert_None by by simplify_map_eq.
  - intros req' Hu Hr. unfold mint. by rewrite Hu, Hr.
Qed.

(** X12 (the token client is always served): whatever [--user] and
    whichever of the two role choices [get_token.py] is started with, the
    body it posts passes validation and authentication, so the issuer
    answers with a token whose subject and role are the arguments;
    without arguments these are "ola" and "reader", and with another role
    the client stops before it posts. *)
Theorem get_token_is_issued (user choice : option string)
    (args : string * string) (now : Z) :
  get_token_args user choice = Some args ->
  (exists login,
     post_token hmac (get_token_payload args) now
     = Issued (mkTokenResponse (minted_token hmac login now) "bearer"
                 JWT_TTL_SECONDS) /\
     username login = args.1 /\
     role_str (role login) = args.2 /\
     password login = "pass") /\
  get_token_args None None = Some ("ola", "reader") /\
  (forall r, r <> "reader" -> r <> "admin" ->
             get_token_args user (Some r) = None).
Proof.
  intros Hargs. split_and!.
  - assert (args.2 = "reader" \/ args.2 = "admin") as Hchoice.
    { unfold get_token_args in Hargs. destruct choice as [r|].
      - case_bool_decide as Hr; [|done]. injection Hargs as <-. simpl.
        apply elem_of_cons in Hr as [->|Hr]; [by left|].
        apply elem_of_cons in Hr as [->|Hr]; [by right|].
        by apply elem_of_nil in Hr.
      - injection Hargs as <-. by left. }
    destruct args as [u r]. simpl in *.
    destruct Hchoice as [->| ->].
    + exists (mkLoginRequest u "pass" reader). by vm_compute.
    + exists (mkLoginRequest u "pass" admin). by vm_compute.
  - done.
  - intros r Hr Ha. unfold get_token_args.
    rewrite bool_decide_eq_false_2; [done|].
    rewrite !elem_of_cons, elem_of_nil. tauto.
Qed.

End ClientProperties.

Lemma truthy_true (s : string) : truthy s = true <-> s <> "".
Proof.
  unfold truthy. rewrite negb_true_iff, bool_decide_eq_false. done.
Qed.

(** The headers of [build_headers], looked up by name. *)
Lemma build_headers_lookup (environ : gmap string string)
    (token name : string) :
  build_headers environ token !! name =
  if decide (name = "X-Risk")
  then if truthy (environ_get environ "RISK")
       then Some (environ_get environ "RISK") else None
  else if decide (name = "X-Device-Trust")
  then if truthy (environ_get environ "DEVICE_TRUST")
       then Some (environ_get environ "DEVICE_TRUST") else None
  else if decide (name = "Authorization")
  then if truthy token then Some ("Bearer " +:+ token) else None
  else None.
Proof.
  unfold build_headers.
  destruct (truthy token), (truthy (environ_get environ "DEVICE_TRUST")),
    (truthy (environ_get environ "RISK"));
    repeat case_decide; by simplify_map_eq.
Qed.

Lemma environ_header (environ : gmap string string) (key value : string) :
  (if truthy (environ_get environ key)
   then Some (environ_get environ key) else None) = Some value <->
  environ !! key = Some value /\ value <> "".
Proof.
  unfold environ_get. destruct (environ !! key) as [v|]; simpl.
  - pose proof (truthy_true v) as Hv. destruct (truthy v); split.
    + intros [= <-]. split; [done|]. by apply Hv.
    + by intros [[= <-] _].
    + done.
    + intros [[= <-] Hne]. by apply Hv in Hne.
  - split; [done|]. by intros [? _].
Qed.

(** X13 (the headers the caller sends): [build_headers] sends the bearer
    header exactly when the token is not empty, and each context header
    exactly when its environment variable is set to something other than
    the empty string, with that value; it never sends an empty value nor
    any other header, and no other environment variable matters. *)
Theorem build_headers_content (environ : gmap string string)
    (token : string) :
  let headers := build_headers environ token in
  (headers !! "Authorization" = None <-> token = "") /\
  (token <> "" -> headers !! "Authorization" = Some ("Bearer " +:+ token)) /\
  (forall device,
     headers !! "X-Device-Trust" = Some device <->
     environ !! "DEVICE_TRUST" = Some device /\ device <> "") /\
  (forall risk,
     headers !! "X-Risk" = Some risk <->
     environ !! "RISK" = Some risk /\ risk <> "") /\
  (forall name value,
     headers !! name = Some value ->
     value <> "" /\
     name ∈ ["Authorization"; "X-Device-Trust"; "X-Risk"]) /\
  (forall environ',
     environ' !! "DEVICE_TRUST" = environ !! "DEVICE_TRUST" ->
     environ' !! "RISK" = environ !! "RISK" ->
     build_headers environ' token = headers).
Proof.
  intros headers. subst headers.
  pose proof (truthy_true token) as Ht.
  split_and!.
  - rewrite build_headers_lookup. simpl.
    destruct (truthy token); split; try done.
    + intros ->. by destruct Ht as [Ht _]; destruct Ht.
    + intros _. destruct (decide (token = "")) as [|Hne]; [done|].
      by apply Ht in Hne.
  - intros Hne. rewrite build_headers_lookup. simpl.
    apply Ht in Hne. by rewrite Hne.
  - intros device. rewrite build_headers_lookup. simpl.
    apply environ_header.
  - intros risk. rewrite build_headers_lookup. simpl.
    apply environ_header.
  - intros name value. rewrite build_headers_lookup.
    repeat case_decide; subst; rewrite !elem_of_cons.
    + intros [_ Hne]%environ_header. tauto.
    + intros [_ Hne]%environ_header. tauto.
    + destruct (truthy token); [|done]. intros [= <-]. split; [done|tauto].
    + done.
  - intros environ' Hdev Hrisk. unfold build_headers, environ_get.
    by rewrite Hdev, Hrisk.
Qed.

(** ** The further properties at sample inputs *)

Lemma require_scope_by_claim_shape_witness :
  string_scp_user !! "scp" = Some (JStr "orders:readonly") /\
  require_scope "orders:read" string_scp_user = Return string_scp_user.
Proof.
  assert (string_scp_user !! "scp" = Some (JStr "orders:readonly")) as Hscp
    by reflexivity.
  split; [exact Hscp|].
  pose proof (require_scope_by_claim_shape "orders:read" string_scp_user)
    as H.
  cbv zeta in H. rewrite Hscp in H. destruct H as [Hpass _].
  apply Hpass. exists "", "only". reflexivity.
Defined.

Lemma require_role_exact_witness :
  require_role "admin" (mint ola_reader 1000)
  = Raise (mkHTTPException 403 "requires role: admin").
Proof.
  destruct (require_role_exact "admin" (mint ola_reader 1000))
    as (_ & Hother & _).
  apply Hother. intros H. vm_compute in H. discriminate.
Defined.

Lemma role_authorization_matrix_witness :
  require_jwt tag_hmac (creds (managed_request admin_token)) 1100
  = Return (mint ola_admin 1000) /\
  result (serve tag_hmac POST_orders (managed_request admin_token) 1100 ORDERS)
  = Allowed (CreateOrderBody true "X003" (JStr "ola")).
Proof.
  assert (require_jwt tag_hmac (creds (managed_request admin_token)) 1100
          = Return (mint ola_admin 1000)) as Hjwt
    by (vm_compute; reflexivity).
  split; [exact Hjwt|].
  assert (x_risk (managed_request admin_token) <> Some "high") as Hrisk
    by discriminate.
  pose proof (role_authorization_matrix tag_hmac POST_orders
                (managed_request admin_token) ola_admin 1000 1100 ORDERS
                Hjwt eq_refl Hrisk) as H.
  refine (eq_trans (proj1 H) _). vm_compute. reflexivity.
Defined.

Lemma denial_exception_known_witness :
  result (serve tag_hmac GET_orders (mkRequest None None None) 0 ORDERS)
  = Denied Unauthenticated (mkHTTPException 401 "missing bearer token") /\
  mkHTTPException 401 "missing bearer token" ∈ denial_exceptions.
Proof.
  assert (result (serve tag_hmac GET_orders (mkRequest None None None) 0
                    ORDERS)
          = Denied Unauthenticated
              (mkHTTPException 401 "missing bearer token")) as Hden
    by reflexivity.
  split; [exact Hden|].
  exact (denial_exception_known tag_hmac GET_orders
           (mkRequest None None None) 0 ORDERS _ _ Hden).
Defined.

Lemma store_append_only_witness :
  exists k,
    k = 0%nat /\
    serve_all tag_hmac [mkCall GET_orders (managed_request reader_token) 1100]
      ORDERS
    = (ORDERS ++ created_orders (length ORDERS) k)%list.
Proof.
  destruct (store_append_only tag_hmac
              [mkCall GET_orders (managed_request reader_token) 1100] ORDERS)
    as (k & _ & Hstore & Hnone).
  exists k. split; [|exact Hstore].
  apply Hnone. repeat constructor. discriminate.
Defined.

Lemma store_identifiers_unique_witness :
  NoDup (order_id <$> ORDERS) /\
  NoDup (order_id <$> serve_all tag_hmac sample_calls ORDERS).
Proof.
  assert (NoDup (order_id <$> ORDERS)) as Hnodup.
  { apply NoDup_cons. split; [|apply NoDup_singleton].
    rewrite list_elem_of_singleton. discriminate. }
  split; [exact Hnodup|].
  apply store_identifiers_unique; [exact Hnodup|].
  intros o j Ho _.
  apply elem_of_cons in Ho as [->|Ho]; [discriminate|].
  apply elem_of_cons in Ho as [->|Ho]; [discriminate|].
  apply elem_of_nil in Ho. destruct Ho.
Defined.

Lemma created_identifier_determines_size_witness :
  (create_order ∅ true ORDERS).1 = CreateOrderBody true "X003" JNull /\
  (create_order ∅ true []).1 = CreateOrderBody true "X001" JNull /\
  exists digits,
    "X003" = String "X" digits /\
    (3 <= String.length digits)%nat /\
    decimal_value digits = Some 3%N.
Proof.
  assert ((create_order ∅ true ORDERS).1 = CreateOrderBody true "X003" JNull)
    as H1 by (vm_compute; reflexivity).
  assert ((create_order ∅ true []).1 = CreateOrderBody true "X001" JNull)
    as H2 by (vm_compute; reflexivity).
  split; [exact H1|]. split; [exact H2|].
  destruct (created_identifier_determines_size ∅ ∅ true true ORDERS []
              "X003" "X001" JNull JNull true true H1 H2)
    as ((digits & Hid & Hlen & Hval & _) & _).
  exists digits. split; [exact Hid|]. split; [exact Hlen|exact Hval].
Defined.

Lemma reads_leave_store_witness :
  store (serve tag_hmac GET_admin_audit (managed_request admin_token) 1100
           ORDERS) = ORDERS.
Proof.
  destruct (reads_leave_store tag_hmac GET_admin_audit
              (managed_request admin_token) 1100 ORDERS) as (Hread & _).
  apply Hread. discriminate.
Defined.

Lemma issuance_outcomes_witness :
  post_token tag_hmac (mkLoginBody None (Some "pass") None) 1000
  = Unprocessable.
Proof.
  destruct (issuance_outcomes tag_hmac (mkLoginBody None (Some "pass") None)
              1000) as (_ & Hmissing & _).
  apply Hmissing. left. reflexivity.
Defined.

Lemma minted_claim_keys_witness :
  mint (mkLoginRequest "ola" "another" reader) 1000 = mint ola_reader 1000.
Proof.
  destruct (minted_claim_keys ola_reader 1000) as (_ & _ & Hsame).
  apply Hsame; reflexivity.
Defined.

Lemma get_token_is_issued_witness :
  get_token_args (Some "bob") (Some "admin") = Some ("bob", "admin") /\
  exists login,
    post_token tag_hmac (get_token_payload ("bob", "admin")) 1000
    = Issued (mkTokenResponse (minted_token tag_hmac login 1000) "bearer"
                JWT_TTL_SECONDS) /\
    username login = "bob".
Proof.
  assert (get_token_args (Some "bob") (Some "admin") = Some ("bob", "admin"))
    as Hargs by reflexivity.
  split; [exact Hargs|].
  destruct (get_token_is_issued tag_hmac (Some "bob") (Some "admin")
              ("bob", "admin") 1000 Hargs)
    as ((login & Hissued & Huser & _) & _).
  exists login. split; assumption.
Defined.

Lemma build_headers_content_witness :
  build_headers managed_environ "abc" !! "Authorization"
  = Some "Bearer abc".
Proof.
  destruct (build_headers_content managed_environ "abc")
    as (_ & Hbearer & _).
  apply Hbearer. discriminate.
Defined.
